(** * service-log-parsers/log_parser.py: log lines to Zipkin spans

    A shallow embedding of [log_parser.py]: the structural pattern
    [log_pattern], [parse_log_line], the identifier checks, span naming and
    tag construction of [send_to_zipkin], [HttpTransportHandler.send] and
    the reading loop of the main block.

    Python strings are lists of characters.  A character is a code point
    below 256 (type [ascii], read as U+0000..U+00FF); the classes [\d], [\w],
    [\s] of the [re] module and [str.lower] are tabulated on that range as
    CPython has them for [str] patterns. *)

From Stdlib Require Import ZArith NArith Lia List Ascii String Bool.
From stdpp Require Import gmap strings list.

Import ListNotations.
Local Open Scope char_scope.
Local Open Scope list_scope.

Abbreviation str := (list ascii).

(** The characters of a literal. *)
Notation "'s!' x" := (list_ascii_of_string x%string) (at level 9, x at level 0, only parsing).

(* ------------------------------------------------------------------ *)
(** ** Characters and strings as Python has them *)

Module Py.

Definition ord (c : ascii) : N := N_of_ascii c.

Definition between (lo hi c : ascii) : bool :=
  (ord lo <=? ord c)%N && (ord c <=? ord hi)%N.

(** [c in '0123456789abcdefABCDEF'] *)
Definition hexdigit (c : ascii) : bool :=
  existsb (Ascii.eqb c) (s! "0123456789abcdefABCDEF").

(** [[a-zA-Z]] *)
Definition ascii_letter (c : ascii) : bool :=
  between "a" "z" c || between "A" "Z" c.

(** [str.isalpha] on U+0000..U+00FF: the ASCII letters, U+00AA, U+00B5,
    U+00BA, and U+00C0..U+00FF without the two operators U+00D7, U+00F7. *)
Definition isalpha (c : ascii) : bool :=
  ascii_letter c
  || (ord c =? 170)%N || (ord c =? 181)%N || (ord c =? 186)%N
  || ((192 <=? ord c)%N && negb (ord c =? 215)%N && negb (ord c =? 247)%N).

(** [str.isdecimal]: category Nd, which below 256 is [0-9]. *)
Definition isdecimal (c : ascii) : bool := between "0" "9" c.

(** [str.isnumeric] on U+0000..U+00FF: the decimals, the superscripts
    U+00B2, U+00B3, U+00B9 and the fractions U+00BC..U+00BE. *)
Definition isnumeric (c : ascii) : bool :=
  isdecimal c
  || (ord c =? 178)%N || (ord c =? 179)%N || (ord c =? 185)%N
  || ((188 <=? ord c)%N && (ord c <=? 190)%N).

(** [\d] of a [str] pattern. *)
Definition re_digit (c : ascii) : bool := isdecimal c.

(** [\w] of a [str] pattern: alphanumeric, or the underscore. *)
Definition re_word (c : ascii) : bool :=
  isalpha c || isnumeric c || Ascii.eqb c "_".

(** [\s] of a [str] pattern: on U+0000..U+00FF the characters
    U+0009..U+000D, U+001C..U+0020, U+0085 and U+00A0. *)
Definition re_space (c : ascii) : bool :=
  ((9 <=? ord c)%N && (ord c <=? 13)%N)
  || ((28 <=? ord c)%N && (ord c <=? 32)%N)
  || (ord c =? 133)%N || (ord c =? 160)%N.

(** [.] without DOTALL: anything but a line feed. *)
Definition re_dot (c : ascii) : bool := negb (Ascii.eqb c "010").

(** [[^x]] *)
Definition other_than (x c : ascii) : bool := negb (Ascii.eqb c x).

(** [str.lower] on one character of U+0000..U+00FF. *)
Definition lower_char (c : ascii) : ascii :=
  if between "A" "Z" c
     || ((192 <=? ord c)%N && (ord c <=? 222)%N && negb (ord c =? 215)%N)
  then ascii_of_N (ord c + 32) else c.

Definition lower (s : str) : str := map lower_char s.

Fixpoint startswith (p s : str) : bool :=
  match p, s with
  | [], _ => true
  | a :: p', b :: s' => Ascii.eqb a b && startswith p' s'
  | _ :: _, [] => false
  end.

(** [p in s] for strings. *)
Fixpoint contains (p s : str) : bool :=
  startswith p s ||
  match s with
  | [] => false
  | _ :: s' => contains p s'
  end.

(** [s.split(sep)] for a one-character separator: the pieces, never an
    empty list. *)
Fixpoint split (sep : ascii) (s : str) : list str :=
  match s with
  | [] => [[]]
  | c :: s' =>
      if Ascii.eqb c sep then [] :: split sep s'
      else match split sep s' with
           | [] => [[c]]
           | p :: ps => (c :: p) :: ps
           end
  end.

(** [xs[-1]] of a list that [split] returned. *)
Definition last_piece (xs : list str) : str := List.last xs [].

(** Truth value of a string: non-empty. *)
Definition truthy (s : str) : bool :=
  match s with [] => false | _ => true end.

End Py.

(* ------------------------------------------------------------------ *)
(** ** The fragment of [re] that the two patterns use *)

Module Re.

Inductive regex : Type :=
| Eps                            (* the empty pattern *)
| Lit (c : ascii)                (* one literal character *)
| Class (p : ascii -> bool)      (* one character of a class *)
| Cat (r1 r2 : regex)            (* r1 r2 *)
| Star (r : regex)               (* r*, greedy *)
| Group (i : nat) (r : regex).   (* ( r ), capturing group number i *)

(** [r+] *)
Definition Plus (r : regex) : regex := Cat r (Star r).

(** [r{n}] *)
Fixpoint Rep (n : nat) (r : regex) : regex :=
  match n with
  | O => Eps
  | S n' => Cat r (Rep n' r)
  end.

(** Captured groups of a match in progress. *)
Abbreviation groups := (gmap nat str).

Section Run.
Context {A : Type}.

(** Backtracking matcher in continuation style: [run r s g k] matches [r]
    at the front of [s], trying the alternatives in the order of [re]
    (a greedy star takes one more iteration before it tries to stop), and
    hands the rest of the input and the groups to [k]; [None] makes it
    back up.  An iteration of a star that consumes nothing is cut. *)
Fixpoint run (r : regex) (s : str) (g : groups)
         (k : str -> groups -> option A) {struct r} : option A :=
  match r with
  | Eps => k s g
  | Lit c =>
      match s with
      | x :: s' => if Ascii.eqb x c then k s' g else None
      | [] => None
      end
  | Class p =>
      match s with
      | x :: s' => if p x then k s' g else None
      | [] => None
      end
  | Cat r1 r2 => run r1 s g (fun s' g' => run r2 s' g' k)
  | Star r1 =>
      (fix loop (n : nat) (s : str) (g : groups) {struct n} : option A :=
         match n with
         | O => k s g
         | S n' =>
             match run r1 s g (fun s' g' =>
                      if (length s' <? length s)%nat then loop n' s' g'
                      else None) with
             | Some a => Some a
             | None => k s g
             end
         end) (length s) s g
  | Group i r1 =>
      run r1 s g
          (fun s' g' => k s' (<[i := take (length s - length s') s]> g'))
  end.
End Run.

(** [pattern.match(s)]: anchored at the start, the end is free. *)
Definition re_match (r : regex) (s : str) : option groups :=
  run r s ∅ (fun _ g => Some g).

(** [re.search(pattern, s)]: the leftmost position with a match. *)
Fixpoint re_search (r : regex) (s : str) : option groups :=
  match re_match r s with
  | Some g => Some g
  | None =>
      match s with
      | [] => None
      | _ :: s' => re_search r s'
      end
  end.

(** [m.group(i)] of a group that took part in the match. *)
Definition group (g : groups) (i : nat) : str := default [] (g !! i).

(** What a match is: [matches r w g g'] when [r] matches exactly the
    word [w] and turns the groups [g] into [g']. *)
Inductive iter (R : str -> groups -> groups -> Prop)
  : str -> groups -> groups -> Prop :=
| iter_stop g : iter R [] g g
| iter_more w1 w2 g g1 g2 :
    R w1 g g1 -> iter R w2 g1 g2 -> iter R (w1 ++ w2) g g2.

Fixpoint matches (r : regex) (w : str) (g g' : groups) {struct r} : Prop :=
  match r with
  | Eps => w = [] /\ g' = g
  | Lit c => w = [c] /\ g' = g
  | Class p => exists x, w = [x] /\ p x = true /\ g' = g
  | Cat r1 r2 =>
      exists w1 w2 g1,
        w = w1 ++ w2 /\ matches r1 w1 g g1 /\ matches r2 w2 g1 g'
  | Star r1 => iter (matches r1) w g g'
  | Group i r1 => exists g1, matches r1 w g g1 /\ g' = <[i := w]> g1
  end.

End Re.

(* ------------------------------------------------------------------ *)
(** ** The two patterns *)

Import Re.

Declare Scope re_scope.
Delimit Scope re_scope with re.
Bind Scope re_scope with regex.
Infix "·" := Cat (at level 41, right associativity) : re_scope.
Local Open Scope re_scope.

Definition d2 : regex := Rep 2 (Class Py.re_digit).
Definition ws : regex := Plus (Class Py.re_space).
Definition word : regex := Plus (Class Py.re_word).
Definition nonspace : regex := Plus (Class (fun c => negb (Py.re_space c))).

(** [log_pattern], piece by piece as the source writes it. *)
Definition log_pattern : regex :=
  (* (\d{4}-\d{2}-\d{2}/\d{2}:\d{2}:\d{2}\.\d{3})\s+ *)
  Group 1 (Rep 4 (Class Py.re_digit) · Lit "-" · d2 · Lit "-" · d2 · Lit "/"
           · d2 · Lit ":" · d2 · Lit ":" · d2 · Lit "."
           · Rep 3 (Class Py.re_digit)) · ws
  (* \[([^\]]+)\] *)
  · Lit "[" · Group 2 (Plus (Class (Py.other_than "]"))) · Lit "]"
  (* \[([^:]+):(\w+):(\w+):(\w+)\]\s+ *)
  · Lit "[" · Group 3 (Plus (Class (Py.other_than ":")))
  · Lit ":" · Group 4 word · Lit ":" · Group 5 word · Lit ":" · Group 6 word
  · Lit "]" · ws
  (* (\w+)\s+ *)
  · Group 7 word · ws
  (* \s* ( [^\s]+ (?: \s+ [^\s]+ )* ) \s+ - \s+ *)
  · Star (Class Py.re_space)
  · Group 8 (nonspace · Star (ws · nonspace)) · ws · Lit "-" · ws
  (* ( .* ) *)
  · Group 9 (Star (Class Py.re_dot)).

(** [([a-zA-Z]+) operation] *)
Definition operation_pattern : regex :=
  Group 1 (Plus (Class Py.ascii_letter))
  · fold_right (fun c r => Lit c · r) Eps (s! " operation").

(* ------------------------------------------------------------------ *)
(** ** Records, spans, exceptions, the outside world *)

(** What lines 121-127 leave in [timestamp_micros]: the integer computed
    from the timestamp text or, after a [ValueError], a reading of the
    clock, [int(time.time() * 1_000)], which depends on the moment of the
    call; the value of a clock reading is not modelled. *)
Inductive stamp : Type :=
| FromText (millis : Z)
| FromClock.

(** The dict that [parse_log_line] returns.  It always has these ten keys,
    so it is a record: [log_data['k']] and [log_data.get('k', d)] read a
    field (the latter after [d] has been evaluated). *)
Record log_data : Type := {
  timestamp : str;
  timestamp_micros : stamp;
  thread : str;
  service_context : str;
  trace_id : str;
  parent_span_id : str;
  span_id : str;
  level : str;
  logger : str;
  message : str
}.

(** [ZipkinAttrs(...)] *)
Record ZipkinAttrs : Type := {
  za_trace_id : str;
  za_span_id : str;
  za_parent_span_id : option str;
  za_is_sampled : bool;
  za_flags : option str
}.

(** [py_zipkin.encoding.Encoding], the one member in use. *)
Inductive Encoding : Type := V2_JSON.

(** What one [with zipkin_span(...)] block hands to the transport: the
    arguments of [zipkin_span] and the annotation added in its body.  The
    annotation time is the quotient [timestamp_micros / 1_000_000], kept as
    numerator and denominator. *)
Record Span : Type := {
  service_name : str;
  span_name : str;
  zipkin_attrs : ZipkinAttrs;
  encoding : Encoding;
  port : Z;
  binary_annotations : gmap string str;
  annotation : str * (stamp * Z)
}.

(** Exceptions, by the [except] clauses that tell them apart. *)
Inductive exn : Type :=
| HTTPError (status : Z) (text : str)  (* from raise_for_status; a RequestException *)
| RequestError (what : str)            (* another RequestException: connection, timeout *)
| ZipkinError (what : str)
| OtherError (what : str).             (* any other Exception *)

Definition is_RequestException (e : exn) : bool :=
  match e with HTTPError _ _ | RequestError _ => true | _ => false end.

Definition is_ZipkinError (e : exn) : bool :=
  match e with ZipkinError _ => true | _ => false end.

(** What [session.post] does with one request. *)
Inductive post_result : Type :=
| Response (status_code : Z) (text : str)
| PostRaises (e : exn).

(** The calls to [logging.error], by call site. *)
Inductive error_record : Type :=
| FailedToSend (e : exn)            (* "Failed to send spans to Zipkin at ..." *)
| ResponseWas (text : option str)   (* "Response: ..." *)
| UnexpectedTransport (e : exn)     (* "An unexpected error occurred during Zipkin transport: ..." *)
| ZipkinErrorProcessing (e : exn)   (* "ZipkinError while processing span: ..." *)
| UnexpectedProcessing (e : exn)    (* "Unexpected error processing span: ..." *)
| ErrorDetails (e : exn)            (* "Error details: ..." *)
| Traceback
| ErrorProcessingLine (line : str) (e : exn). (* "Error processing line: ..." *)

(** What the program reads from outside:
    - [SERVICE_NAME], from the environment ('task-service' by default);
    - [entropy n], the 128 random bits of the [n]-th call of [uuid.uuid4];
    - [backend n], what the [n]-th POST to the Zipkin server meets;
    - [epoch_millis ts], what
      [int(datetime.strptime(ts, fmt).timestamp() * 1_000)] gives for the
      timestamp text [ts]: the integer, or [None] when [strptime] raises
      [ValueError] (month 13, say).  Its floating-point arithmetic and the
      local time zone are not modelled;
    - [unsent_exit span], what leaving the [with zipkin_span(...)] block
      does for a span that py_zipkin does not hand to the transport: it
      returns ([None]) or raises. *)
Record env : Type := {
  SERVICE_NAME : str;
  entropy : nat -> N;
  backend : nat -> post_result;
  epoch_millis : str -> option Z;
  unsent_exit : Span -> option exn
}.

(** What the program has done so far. *)
Record world : Type := {
  uuid_calls : nat;            (* calls of uuid.uuid4 *)
  requests : list Span;        (* POSTs made, the latest first *)
  errors : list error_record   (* logging.error calls, the latest first *)
}.

Definition world0 : world :=
  {| uuid_calls := 0; requests := []; errors := [] |}.

(* ------------------------------------------------------------------ *)
(** ** Calls that log, draw identifiers, post, and may raise *)

(** A Python call ends by returning or by raising. *)
Inductive outcome (A : Type) : Type :=
| Return (a : A)
| Raise (e : exn).
Arguments Return {A} a.
Arguments Raise {A} e.

Definition M (A : Type) : Type := world -> outcome A * world.

Definition ret {A} (a : A) : M A := fun w => (Return a, w).
Definition raise {A} (e : exn) : M A := fun w => (Raise e, w).
Definition bind {A B} (m : M A) (f : A -> M B) : M B :=
  fun w => match m w with
           | (Return a, w') => f a w'
           | (Raise e, w') => (Raise e, w')
           end.
(** [try: m  except ...: h e] *)
Definition try_except {A} (m : M A) (h : exn -> M A) : M A :=
  fun w => match m w with
           | (Return a, w') => (Return a, w')
           | (Raise e, w') => h e w'
           end.

Notation "'let*' x ':=' m 'in' k" := (bind m (fun x => k))
  (at level 10, x name, m at level 100, k at level 200, only parsing).

Definition logging_error (r : error_record) : M unit :=
  fun w => (Return tt,
            {| uuid_calls := uuid_calls w; requests := requests w;
               errors := r :: errors w |}).

(** [uuid.uuid4()] as an integer: 128 random bits with the variant and
    version bits of RFC 4122 set. *)
Definition uuid4_int (r : N) : N :=
  let i := (r mod 2 ^ 128)%N in
  let i := N.ldiff i (N.shiftl 0xc000 48) in
  let i := N.lor i (N.shiftl 0x8000 48) in
  let i := N.ldiff i (N.shiftl 0xf000 64) in
  N.lor i (N.shiftl 4 76).

Definition hex_digit (d : N) : ascii :=
  nth (N.to_nat d) (s! "0123456789abcdef") "0".

(** ['%0<width>x' % v] for [v] below [16 ^ width]. *)
Fixpoint hex (width : nat) (v : N) : str :=
  match width with
  | O => []
  | S w => hex w (v / 16) ++ [hex_digit (v mod 16)]
  end.

(** [len(x) in (16, 32)] *)
Definition len_16_or_32 (x : str) : bool :=
  (length x =? 16)%nat || (length x =? 32)%nat.

(** [all(c in '0123456789abcdefABCDEF' for c in x)] *)
Definition all_hex (x : str) : bool := forallb Py.hexdigit x.

(** The test of lines 165, 170 and 177:
    [len(x) not in (16, 32) or not all(c in '0123456789abcdefABCDEF' for c in x)] *)
Definition malformed (x : str) : bool :=
  negb (len_16_or_32 x) || negb (all_hex x).

(* ------------------------------------------------------------------ *)
(** ** The program *)

Section Program.
Variable E : env.

(** [uuid.uuid4().hex] *)
Definition uuid4_hex : M str :=
  fun w => (Return (hex 32 (uuid4_int (entropy E (uuid_calls w)))),
            {| uuid_calls := S (uuid_calls w); requests := requests w;
               errors := errors w |}).

(** [parse_log_line(line)]; [None] is the source's [None]. *)
Definition parse_log_line (line : str) : option log_data :=
  match re_match log_pattern line with
  | None => None
  | Some m =>
      let timestamp_str := group m 1 in
      Some {| timestamp := timestamp_str;
              timestamp_micros := match epoch_millis E timestamp_str with
                                | Some millis => FromText millis
                                | None => FromClock
                                end;
              thread := group m 2;
              service_context := group m 3;
              trace_id := group m 4;
              parent_span_id := group m 5;
              span_id := group m 6;
              level := group m 7;
              logger := group m 8;
              message := group m 9 |}
  end.

(** [session.post(url, data=..., headers=..., timeout=5)] *)
Definition session_post (data : Span) : M (Z * str) :=
  fun w =>
    let w' := {| uuid_calls := uuid_calls w; requests := data :: requests w;
                 errors := errors w |} in
    match backend E (length (requests w)) with
    | Response status_code text => (Return (status_code, text), w')
    | PostRaises e => (Raise e, w')
    end.

(** [response.raise_for_status()]: raises for 4xx and 5xx. *)
Definition raise_for_status (response : Z * str) : M unit :=
  let '(status_code, text) := response in
  if (400 <=? status_code)%Z && (status_code <? 600)%Z
  then raise (HTTPError status_code text)
  else ret tt.

(** [HttpTransportHandler.send(encoded_spans)] *)
Definition send (encoded_spans : Span) : M unit :=
  try_except
    (let* response := session_post encoded_spans in
     let* _ := raise_for_status response in
     ret tt)
    (fun e =>
       if is_RequestException e then
         let* _ := logging_error (FailedToSend e) in
         logging_error (ResponseWas match e with
                                    | HTTPError _ text => Some text
                                    | _ => None
                                    end)
       else logging_error (UnexpectedTransport e)).

(** Lines 164-186 of [send_to_zipkin], on its three local variables
    ([parent_span_id] may be Python's [None]). *)
Definition normalize_ids (trace_id span_id : str) (parent_span_id : option str)
  : M (str * str * option str) :=
  let* trace_id := (if Py.truthy trace_id && malformed trace_id
               then uuid4_hex else ret trace_id) in
  let* span_id := (if Py.truthy span_id && malformed span_id
              then uuid4_hex else ret span_id) in
  let parent_span_id :=
    match parent_span_id with
    | Some p =>
        if Py.truthy p && negb (bool_decide (p = s! "None")) then
          if malformed p then None else Some p
        else None
    | None => None
    end in
  ret (trace_id, span_id, parent_span_id).

(** Lines 188-206: the span name. *)
Definition make_span_name (log_data : log_data) : str :=
  let logger_name := Py.last_piece (Py.split "." (logger log_data)) in
  let message := message log_data in
  let operation :=
    if Py.contains (s! "operation") (Py.lower message) then
      match re_search operation_pattern message with
      | Some op_match => group op_match 1
      | None => s! "process"
      end
    else s! "process" in
  let span_name := logger_name ++ s! "." ++ operation in
  let thread := thread log_data in
  if Py.truthy thread
  then span_name ++ s! " (" ++ Py.last_piece (Py.split "-" thread) ++ s! ")"
  else span_name.

(** Lines 219-231: the tags. *)
Definition make_tags (log_data : log_data) : gmap string str :=
  let message := message log_data in
  let tags : gmap string str :=
    <["original_log_format"%string := service_context log_data]>
      (<["logger"%string := logger log_data]>
         (<["level"%string := level log_data]>
            (<["thread"%string := thread log_data]> ∅))) in
  if (length message <? 256)%nat
  then <["message"%string := message]> tags
  else <["message"%string := take 253 message ++ s! "..."]> tags.

(** The span of lines 211-244, from a record and its checked ids. *)
Definition build_span (log_data : log_data) (ids : str * str * option str)
  : Span :=
  let '(trace_id, span_id, parent_span_id) := ids in
  let logger_name := Py.last_piece (Py.split "." (logger log_data)) in
  {| service_name := SERVICE_NAME E;
     span_name := make_span_name log_data;
     zipkin_attrs := {| za_trace_id := trace_id;
                        za_span_id := span_id;
                        za_parent_span_id := parent_span_id;
                        za_is_sampled := true;
                        za_flags := None |};
     encoding := V2_JSON;
     port := 0;
     binary_annotations := make_tags log_data;
     annotation := (logger_name ++ s! ": " ++ message log_data,
                    (timestamp_micros log_data, 1000000%Z)) |}.

(** Leaving the [with zipkin_span(...)] block: py_zipkin (a library, not
    part of the repository) encodes the sampled span and calls the
    transport handler with it once; the encoded bytes are not modelled,
    the request carries the span.  A span whose id has 32 digits (every
    identifier that line 172 makes has) is not handed to the transport:
    no POST is made for it. *)
Definition zipkin_span (span : Span) : M unit :=
  if (length (za_span_id (zipkin_attrs span)) =? 32)%nat then
    match unsent_exit E span with
    | Some e => raise e
    | None => ret tt
    end
  else send span.

(** [send_to_zipkin(log_data)] *)
Definition send_to_zipkin (log_data : option log_data) : M unit :=
  match log_data with
  | None => ret tt
  | Some log_data =>
      try_except
        (let* default_trace_id := uuid4_hex in
         let trace_id := trace_id log_data in
         let* default_span_id := uuid4_hex in
         let span_id := span_id log_data in
         let parent_span_id := Some (parent_span_id log_data) in
         let* ids := normalize_ids trace_id span_id parent_span_id in
         zipkin_span (build_span log_data ids))
        (fun e =>
           if is_ZipkinError e then logging_error (ZipkinErrorProcessing e)
           else
             let* _ := logging_error (UnexpectedProcessing e) in
             let* _ := logging_error (ErrorDetails e) in
             logging_error Traceback)
  end.

(** One turn of the reading loop of the main block: the new
    [span_count]. *)
Definition process_line (line : str) (span_count : nat) : M nat :=
  try_except
    (match parse_log_line line with
     | Some parsed_data =>
         let* _ := send_to_zipkin (Some parsed_data) in
         ret (S span_count)
     | None => ret span_count
     end)
    (fun e =>
       let* _ := logging_error (ErrorProcessingLine line e) in
       ret span_count).

(** The loop [for line in f] from a given [span_count]. *)
Fixpoint read_lines (lines : list str) (span_count : nat) : M nat :=
  match lines with
  | [] => ret span_count
  | line :: rest =>
      let* span_count := process_line line span_count in
      read_lines rest span_count
  end.

(** The main block on the lines of its input: the count that
    "Finished processing. Total spans sent: ..." reports. *)
Definition main (lines : list str) : M nat := read_lines lines 0.

End Program.

(* ------------------------------------------------------------------ *)
(** ** Vocabulary of the specification *)

(** The rule of the specification for one identifier: hexadecimal digits
    only, and 16 or 32 of them. *)
Definition valid_id (x : str) : bool := len_16_or_32 x && all_hex x.

Definition lower_hexdigit (c : ascii) : bool :=
  existsb (Ascii.eqb c) (s! "0123456789abcdef").

(** [[A-Za-z0-9_]] *)
Definition ascii_word (c : ascii) : bool :=
  Py.ascii_letter c || Py.between "0" "9" c || Ascii.eqb c "_".

(** The text after the first [c] of [s], and the text before it. *)
Fixpoint after (c : ascii) (s : str) : option str :=
  match s with
  | [] => None
  | x :: s' => if Ascii.eqb x c then Some s' else after c s'
  end.

Fixpoint before (c : ascii) (s : str) : option str :=
  match s with
  | [] => None
  | x :: s' => if Ascii.eqb x c then Some [] else option_map (cons x) (before c s')
  end.

(** The inside of the second bracketed group of a line: the text from
    the first opening bracket that follows the first [[...]] to the next
    closing bracket. *)
Definition second_bracket_group (line : str) : option str :=
  match after "[" line with
  | None => None
  | Some r1 =>
      match after "]" r1 with
      | None => None
      | Some r2 =>
          match after "[" r2 with
          | None => None
          | Some r3 => before "]" r3
          end
      end
  end.

(** The text behind the closing bracket of that group. *)
Definition after_second_group (line : str) : option str :=
  match after "[" line with
  | None => None
  | Some r1 =>
      match after "]" r1 with
      | None => None
      | Some r2 =>
          match after "[" r2 with
          | None => None
          | Some r3 => after "]" r3
          end
      end
  end.

(** Its colon-delimited segments. *)
Definition segments (grp : str) : list str := Py.split ":" grp.

(** Whether [parse_log_line] makes a record of a line, and the number of
    lines of an input for which it does. *)
Definition accepts (E : env) (line : str) : bool :=
  match parse_log_line E line with Some _ => true | None => false end.

Definition accepted (E : env) (lines : list str) : nat :=
  length (List.filter (accepts E) lines).

(** All 256 characters. *)
Definition all_chars : list ascii := map ascii_of_nat (seq 0 256).

(** Every character that a pattern can consume satisfies [P]. *)
Fixpoint alphabet (P : ascii -> bool) (r : regex) : bool :=
  match r with
  | Eps => true
  | Lit c => P c
  | Class p => forallb (fun c => implb (p c) (P c)) all_chars
  | Cat r1 r2 => alphabet P r1 && alphabet P r2
  | Star r1 => alphabet P r1
  | Group _ r1 => alphabet P r1
  end.

(** The group numbers of a pattern. *)
Fixpoint group_ids (r : regex) : list nat :=
  match r with
  | Eps | Lit _ | Class _ => []
  | Cat r1 r2 => group_ids r1 ++ group_ids r2
  | Star r1 => group_ids r1
  | Group i r1 => i :: group_ids r1
  end.

(** A pattern that cannot match the empty word, by its syntax. *)
Fixpoint consuming (r : regex) : bool :=
  match r with
  | Eps | Star _ => false
  | Lit _ | Class _ => true
  | Cat r1 r2 => consuming r1 || consuming r2
  | Group _ r1 => consuming r1
  end.

(** Every starred part of a pattern is consuming. *)
Fixpoint stars_consume (r : regex) : bool :=
  match r with
  | Eps | Lit _ | Class _ => true
  | Cat r1 r2 => stars_consume r1 && stars_consume r2
  | Star r1 => consuming r1 && stars_consume r1
  | Group _ r1 => stars_consume r1
  end.

(** A non-empty run of word characters. *)
Definition wordy (x : str) : Prop := x <> [] /\ forallb Py.re_word x = true.

(** The rule on the identifiers of a span: trace and span id, and the
    parent when there is one. *)
Definition ids_ok (a : ZipkinAttrs) : Prop :=
  valid_id (za_trace_id a) = true
  /\ valid_id (za_span_id a) = true
  /\ forall x, za_parent_span_id a = Some x -> valid_id x = true.

(** The value of [uuid.uuid4().hex] at call number [n]. *)
Definition fresh (E : env) (n : nat) : str := hex 32 (uuid4_int (entropy E n)).

(** Whether lines 165-173 replace an identifier. *)
Definition regenerated (x : str) : bool := Py.truthy x && malformed x.

(** What lines 175-184 leave in [parent_span_id]. *)
Definition kept_parent (p : option str) : option str :=
  match p with
  | Some x => if valid_id x then Some x else None
  | None => None
  end.

(** The errors that one POST logs. *)
Definition transport_errors (r : post_result) : list error_record :=
  match r with
  | Response status_code text =>
      if (400 <=? status_code)%Z && (status_code <? 600)%Z
      then [ResponseWas (Some text); FailedToSend (HTTPError status_code text)]
      else []
  | PostRaises (HTTPError st text) =>
      [ResponseWas (Some text); FailedToSend (HTTPError st text)]
  | PostRaises (RequestError what) =>
      [ResponseWas None; FailedToSend (RequestError what)]
  | PostRaises e => [UnexpectedTransport e]
  end.

Definition advance (k : nat) (w : world) : world :=
  {| uuid_calls := k + uuid_calls w; requests := requests w; errors := errors w |}.

(** The identifiers that [send_to_zipkin] settles on for a record, in a
    world where [n] identifiers have been drawn. *)
Definition ids_of (E : env) (n : nat) (t s : str) (p : option str)
  : str * str * option str :=
  (if regenerated t then fresh E n else t,
   if regenerated s then fresh E (if regenerated t then S n else n) else s,
   kept_parent p).

(** The lines of the scenarios. *)
Definition scenario_1_line : str :=
  s! "2024-01-15/10:30:00.123[thread-1][svc-a:4bf92f3577b34da6a3ce929d0e0e4736:00f067aa0ba902b7:00f067aa0ba902b8] INFO com.example.Worker - operation start".

Definition scenario_1_spaced : str :=
  s! "2024-01-15/10:30:00.123 [thread-1][svc-a:4bf92f3577b34da6a3ce929d0e0e4736:00f067aa0ba902b7:00f067aa0ba902b8] INFO com.example.Worker - operation start".



Definition xyz_line : str :=
  s! "2024-01-15/10:30:00.123 [thread-1][svc-a:xyz:00f067aa0ba902b7:00f067aa0ba902b8] INFO com.example.Worker - operation start".

Definition hyphen_line : str :=
  s! "2024-01-15/10:30:00.123 [thread-1][svc-a:4bf92f35-77b34da6:00f067aa0ba902b7:00f067aa0ba902b8] INFO com.example.Worker - operation start".

(** A trace id that begins with U+00E9, a letter outside ASCII. *)
Definition accented_line : str :=
  s! "2024-01-15/10:30:00.123 [thread-1][svc-a:" ++ ["233"]
  ++ s! "f92f3577b34da6:00f067aa0ba902b7:00f067aa0ba902b8] INFO com.example.Worker - operation start".

Definition long_message_line : str :=
  s! "2024-01-15/10:30:00.123 [thread-1][svc-a:4bf92f3577b34da6a3ce929d0e0e4736:00f067aa0ba902b7:00f067aa0ba902b8] INFO com.example.Worker - "
  ++ repeat "a" 256.

(** The record of [scenario_1_spaced]. *)
Definition scenario_1_record (E : env) : log_data :=
  {| timestamp := s! "2024-01-15/10:30:00.123";
     timestamp_micros := match epoch_millis E (s! "2024-01-15/10:30:00.123") with
                         | Some millis => FromText millis
                         | None => FromClock
                         end;
     thread := s! "thread-1";
     service_context := s! "svc-a";
     trace_id := s! "4bf92f3577b34da6a3ce929d0e0e4736";
     parent_span_id := s! "00f067aa0ba902b7";
     span_id := s! "00f067aa0ba902b8";
     level := s! "INFO";
     logger := s! "com.example.Worker";
     message := s! "operation start" |}.

(** The record of [long_message_line]: a message of 256 letters. *)
Definition long_message_record (E : env) : log_data :=
  {| timestamp := s! "2024-01-15/10:30:00.123";
     timestamp_micros := match epoch_millis E (s! "2024-01-15/10:30:00.123") with
                         | Some millis => FromText millis
                         | None => FromClock
                         end;
     thread := s! "thread-1";
     service_context := s! "svc-a";
     trace_id := s! "4bf92f3577b34da6a3ce929d0e0e4736";
     parent_span_id := s! "00f067aa0ba902b7";
     span_id := s! "00f067aa0ba902b8";
     level := s! "INFO";
     logger := s! "com.example.Worker";
     message := repeat "a" 256 |}.



(** The span of [scenario_1_record]. *)
Definition scenario_1_span (E : env) : Span :=
  build_span E (scenario_1_record E)
             (s! "4bf92f3577b34da6a3ce929d0e0e4736", s! "00f067aa0ba902b8",
              Some (s! "00f067aa0ba902b7")).

(** A run against a server that answers every POST with [status_code]. *)
Definition answering (status_code : Z) : env :=
  {| SERVICE_NAME := s! "task-service";
     entropy := fun n => N.of_nat n;
     backend := fun _ => Response status_code [];
     epoch_millis := fun _ => Some 0%Z;
     unsent_exit := fun _ => None |}.

(** The longest prefix of [s] whose characters are in the class [p], and
    the text behind it. *)
Fixpoint leading (p : ascii -> bool) (s : str) : str :=
  match s with
  | x :: s' => if p x then x :: leading p s' else []
  | [] => []
  end.

Fixpoint behind (p : ascii -> bool) (s : str) : str :=
  match s with
  | x :: s' => if p x then behind p s' else s
  | [] => []
  end.

(** [x] follows a template in which [d] stands for a decimal digit and
    every other character for itself. *)
Fixpoint fits (template x : str) : bool :=
  match template, x with
  | [], [] => true
  | t :: template', c :: x' =>
      (if Ascii.eqb t "d" then Py.re_digit c else Ascii.eqb c t)
      && fits template' x'
  | _, _ => false
  end.

(** The layout YYYY-MM-DD/HH:MM:SS.mmm *)
Definition timestamp_shaped (x : str) : bool :=
  fits (s! "dddd-dd-dd/dd:dd:dd.ddd") x.

(** A non-empty run of white space. *)
Definition blank (x : str) : Prop := x <> [] /\ forallb Py.re_space x = true.

(** A non-empty text that neither begins nor ends with white space. *)
Definition trimmed (x : str) : bool :=
  match x with
  | [] => false
  | c :: _ => negb (Py.re_space c) && negb (Py.re_space (List.last x c))
  end.

(** A non-empty run of ASCII letters. *)
Definition letters (x : str) : Prop :=
  x <> [] /\ forallb Py.ascii_letter x = true.

(** The message has a run of ASCII letters, a space and the word
    [operation] somewhere. *)
Definition names_operation (message : str) : Prop :=
  exists pre w rest,
    message = pre ++ w ++ s! " operation" ++ rest /\ letters w.

(** Lines 193-198 of [send_to_zipkin]: the operation name. *)
Definition operation_of (message : str) : str :=
  if Py.contains (s! "operation") (Py.lower message) then
    match re_search operation_pattern message with
    | Some op_match => group op_match 1
    | None => s! "process"
    end
  else s! "process".

(** No character of [x] is [c]. *)
Definition free_of (c : ascii) (x : str) : Prop :=
  forallb (Py.other_than c) x = true.

(** [x] is empty or ends with [c]. *)
Definition empty_or_ends_with (c : ascii) (x : str) : Prop :=
  x = [] \/ exists q, x = q ++ [c].

(** The number of [uuid4] calls for a record: the two default arguments
    of [.get], and one for each identifier that is replaced. *)
Definition draws (rec : log_data) : nat :=
  (2 + (if regenerated (trace_id rec) then 1 else 0)
     + (if regenerated (span_id rec) then 1 else 0))%nat.

(** Whether py_zipkin hands a span to the transport. *)
Definition handed_over (span : Span) : bool :=
  negb (length (za_span_id (zipkin_attrs span)) =? 32)%nat.

(** Whether the span of a record is handed over with the span id of the
    record: the id has 16 hexadecimal digits. *)
Definition sendable (rec : log_data) : bool :=
  (length (span_id rec) =? 16)%nat && all_hex (span_id rec).

(** The errors that [send_to_zipkin] logs when the block is left without
    a POST. *)
Definition exit_errors (o : option exn) : list error_record :=
  match o with
  | None => []
  | Some e =>
      if is_ZipkinError e then [ZipkinErrorProcessing e]
      else [Traceback; ErrorDetails e; UnexpectedProcessing e]
  end.

(** The span of a record in a world where [n] identifiers have been
    drawn. *)
Definition span_of (E : env) (rec : log_data) (n : nat) : Span :=
  build_span E rec (ids_of E (2 + n) (trace_id rec) (span_id rec)
                           (Some (parent_span_id rec))).

(** The world after [send_to_zipkin] on a record. *)
Definition record_effect (E : env) (rec : log_data) (w : world) : world :=
  if handed_over (span_of E rec (uuid_calls w)) then
    {| uuid_calls := draws rec + uuid_calls w;
       requests := span_of E rec (uuid_calls w) :: requests w;
       errors := transport_errors (backend E (length (requests w))) ++ errors w |}
  else
    {| uuid_calls := draws rec + uuid_calls w;
       requests := requests w;
       errors := exit_errors (unsent_exit E (span_of E rec (uuid_calls w)))
                 ++ errors w |}.

(** The world after one turn of the loop. *)
Definition line_effect (E : env) (line : str) (w : world) : world :=
  match parse_log_line E line with
  | Some rec => record_effect E rec w
  | None => w
  end.

(** The world after the loop. *)
Definition lines_effect (E : env) (lines : list str) (w : world) : world :=
  fold_left (fun w line => line_effect E line w) lines w.


(** Whether a POST that met [r] logs an error. *)
Definition post_failed (r : post_result) : bool :=
  match r with
  | Response status_code _ => (400 <=? status_code)%Z && (status_code <? 600)%Z
  | PostRaises _ => true
  end.

(* ------------------------------------------------------------------ *)
(** ** The matcher finds matches only *)

Section RunSound.
Context {A : Type}.

Lemma run_sound (r : regex) :
  forall (s : str) (g : groups) (k : str -> groups -> option A) (a : A),
    run r s g k = Some a ->
    exists w s' g', s = w ++ s' /\ matches r w g g' /\ k s' g' = Some a.
Proof.
  induction r as [ | c | p | r1 IH1 r2 IH2 | r1 IH1 | i r1 IH1 ];
    intros s g k a H; simpl in H.
  - exists [], s, g. repeat split; assumption.
  - destruct s as [ | x s' ]; [ discriminate | ].
    destruct (Ascii.eqb x c) eqn:Hx; [ | discriminate ].
    apply Ascii.eqb_eq in Hx. subst x.
    exists [c], s', g. repeat split; assumption.
  - destruct s as [ | x s' ]; [ discriminate | ].
    destruct (p x) eqn:Hx; [ | discriminate ].
    exists [x], s', g. split; [ reflexivity | ].
    split; [ exists x; auto | assumption ].
  - apply IH1 in H as (w1 & s1 & g1 & -> & M1 & H).
    apply IH2 in H as (w2 & s2 & g2 & -> & M2 & H).
    exists (w1 ++ w2), s2, g2. split; [ now rewrite app_assoc | ].
    split; [ | assumption ]. simpl. exists w1, w2, g1. auto.
  - remember (length s) as n eqn:Hn. clear Hn.
    revert s g H. induction n as [ | n IHn ]; intros s g H.
    + exists [], s, g. split; [ reflexivity | ].
      split; [ constructor | assumption ].
    + match type of H with
      | match ?t with _ => _ end = _ => destruct t as [ a0 | ] eqn:Hr
      end.
      * apply IH1 in Hr as (w1 & s1 & g1 & -> & M1 & Hk).
        destruct (length s1 <? length (w1 ++ s1))%nat; [ | discriminate ].
        rewrite H in Hk.
        apply IHn in Hk as (w2 & s2 & g2 & -> & M2 & Hk).
        exists (w1 ++ w2), s2, g2. split; [ now rewrite app_assoc | ].
        split; [ | assumption ]. simpl. econstructor; eassumption.
      * exists [], s, g. split; [ reflexivity | ].
        split; [ constructor | assumption ].
  - apply IH1 in H as (w & s' & g' & -> & M1 & H).
    exists w, s', (<[i := w]> g'). split; [ reflexivity | ].
    split; [ simpl; eauto | ].
    replace (length (w ++ s') - length s')%nat with (length w) in H
      by (rewrite length_app; lia).
    now rewrite take_app_length in H.
Qed.
End RunSound.

Lemma re_match_sound (r : regex) (s : str) (m : groups) :
  re_match r s = Some m ->
  exists w s', s = w ++ s' /\ matches r w ∅ m.
Proof.
  intros H. apply run_sound in H as (w & s' & g' & -> & M1 & H).
  injection H as ->. eauto.
Qed.

(** ** The matcher finds a match when there is one *)

Lemma consuming_nonempty (r : regex) :
  consuming r = true ->
  forall w g g', matches r w g g' -> w <> [].
Proof.
  induction r as [ | c | p | r1 IH1 r2 IH2 | r1 IH1 | i r1 IH1 ];
    cbn [consuming matches]; intros Hc w g g' H; try discriminate.
  - destruct H as [-> _]. discriminate.
  - destruct H as (x & -> & _). discriminate.
  - destruct H as (w1 & w2 & g1 & -> & H1 & H2).
    apply orb_true_iff in Hc as [ Hc | Hc ].
    + specialize (IH1 Hc _ _ _ H1). destruct w1; [ congruence | discriminate ].
    + specialize (IH2 Hc _ _ _ H2). destruct w2; [ congruence | ].
      destruct w1; discriminate.
  - destruct H as (g1 & H & _). eapply IH1; eassumption.
Qed.

Section RunComplete.
Context {A : Type}.

Lemma run_complete (r : regex) :
  stars_consume r = true ->
  forall (w s' : str) (g g' : groups) (k : str -> groups -> option A),
    matches r w g g' -> k s' g' <> None -> run r (w ++ s') g k <> None.
Proof.
  induction r as [ | c | p | r1 IH1 r2 IH2 | r1 IH1 | i r1 IH1 ];
    cbn [stars_consume]; intros Hs w s' g g' k H Hk; cbn [matches] in H.
  - destruct H as [-> ->]. exact Hk.
  - destruct H as [-> ->]. simpl. now rewrite Ascii.eqb_refl.
  - destruct H as (x & -> & Hx & ->). simpl. now rewrite Hx.
  - apply andb_true_iff in Hs as [Hs1 Hs2].
    destruct H as (w1 & w2 & g1 & -> & H1 & H2).
    rewrite <- app_assoc. cbn [run].
    apply (IH1 Hs1 _ _ _ _ _ H1). now apply (IH2 Hs2 _ _ _ _ _ H2).
  - apply andb_true_iff in Hs as [Hc Hs].
    cbn [run]. generalize (Nat.le_refl (length (w ++ s'))).
    generalize (length (w ++ s')) at 2 3. intros n Hn.
    revert n Hn. induction H as [ g | w1 w2 g g1 g2 H1 H2 IH ]; intros n Hn.
    + destruct n as [ | n ]; [ exact Hk | ].
      match goal with
      | |- match ?t with _ => _ end <> None => destruct t
      end; [ discriminate | exact Hk ].
    + pose proof (consuming_nonempty _ Hc _ _ _ H1) as Hw1.
      assert (Hlen : (length (w2 ++ s') < length ((w1 ++ w2) ++ s'))%nat).
      { rewrite <- app_assoc, (length_app w1). destruct w1; [ congruence | ].
        simpl. lia. }
      destruct n as [ | n ]; [ lia | ].
      match goal with
      | |- match ?t with _ => _ end <> None => assert (Ht : t <> None)
      end.
      { rewrite <- app_assoc. apply (IH1 Hs _ _ _ _ _ H1).
        rewrite app_assoc. apply Nat.ltb_lt in Hlen as Hlt. rewrite Hlt.
        apply IH; [ exact Hk | lia ]. }
      match goal with
      | |- match ?t with _ => _ end <> None => destruct t
      end; [ discriminate | congruence ].
  - destruct H as (g1 & H & ->). cbn [run].
    apply (IH1 Hs _ _ _ _ _ H).
    replace (length (w ++ s') - length s')%nat with (length w)
      by (rewrite length_app; lia).
    now rewrite take_app_length.
Qed.
End RunComplete.

(** [pattern.match] succeeds exactly on the strings that begin with a
    match. *)
Lemma re_match_iff (r : regex) (s : str) :
  stars_consume r = true ->
  re_match r s <> None <-> exists w s' g', s = w ++ s' /\ matches r w ∅ g'.
Proof.
  intros Hs. split.
  - destruct (re_match r s) as [ m | ] eqn:Hm; [ intros _ | congruence ].
    apply re_match_sound in Hm as (w & s' & -> & H). eauto.
  - intros (w & s' & g' & -> & H). unfold re_match.
    now apply (run_complete r Hs _ _ _ _ _ H).
Qed.

Lemma log_pattern_stars_consume : stars_consume log_pattern = true.
Proof. reflexivity. Qed.

Lemma in_all_chars (c : ascii) : In c all_chars.
Proof.
  unfold all_chars. rewrite <- (ascii_nat_embedding c).
  apply in_map, in_seq. pose proof (nat_ascii_bounded c). lia.
Qed.

Lemma iter_alphabet (P : ascii -> bool) (R : str -> groups -> groups -> Prop) :
  (forall w g g', R w g g' -> forallb P w = true) ->
  forall w g g', iter R w g g' -> forallb P w = true.
Proof.
  intros HR w g g' H. induction H as [ | w1 w2 g g1 g2 H1 _ IH ].
  - reflexivity.
  - rewrite forallb_app, (HR _ _ _ H1), IH. reflexivity.
Qed.

(** A match consumes characters of the pattern's alphabet only. *)
Lemma matches_alphabet (P : ascii -> bool) (r : regex) :
  alphabet P r = true ->
  forall w g g', matches r w g g' -> forallb P w = true.
Proof.
  induction r as [ | c | p | r1 IH1 r2 IH2 | r1 IH1 | i r1 IH1 ];
    intros Ha w g g' H; cbn [alphabet] in Ha; cbn [matches] in H.
  - destruct H as [-> _]. reflexivity.
  - destruct H as [-> _]. simpl. now rewrite Ha.
  - destruct H as (x & -> & Hx & _). simpl.
    rewrite forallb_forall in Ha. specialize (Ha x (in_all_chars x)).
    rewrite Hx in Ha. simpl in Ha. now rewrite Ha.
  - apply andb_true_iff in Ha as [Ha1 Ha2].
    destruct H as (w1 & w2 & g1 & -> & H1 & H2).
    rewrite forallb_app, (IH1 Ha1 _ _ _ H1), (IH2 Ha2 _ _ _ H2). reflexivity.
  - eapply iter_alphabet; [ | eassumption ]. intros; eapply IH1; eassumption.
  - destruct H as (g1 & H & _). eapply IH1; eassumption.
Qed.

(** A match leaves the groups that the pattern does not have as they
    were. *)
Lemma matches_frame (r : regex) :
  forall w g g' (j : nat),
    matches r w g g' -> ~ In j (group_ids r) -> g' !! j = g !! j.
Proof.
  induction r as [ | c | p | r1 IH1 r2 IH2 | r1 IH1 | i r1 IH1 ];
    simpl; intros w g g' j H Hj.
  - destruct H as [_ ->]. reflexivity.
  - destruct H as [_ ->]. reflexivity.
  - destruct H as (x & _ & _ & ->). reflexivity.
  - destruct H as (w1 & w2 & g1 & _ & H1 & H2).
    rewrite in_app_iff in Hj.
    rewrite (IH2 _ _ _ j H2), (IH1 _ _ _ j H1); tauto.
  - induction H as [ | w1 w2 g g1 g2 H1 _ IH ]; [ reflexivity | ].
    rewrite IH. eapply IH1; eassumption.
  - destruct H as (g1 & H & ->).
    rewrite lookup_insert_ne by (intros ->; apply Hj; now left).
    eapply IH1; [ eassumption | tauto ].
Qed.

(** One or more characters of a class. *)
Lemma matches_plus_class (p : ascii -> bool) (w : str) (g g' : groups) :
  matches (Plus (Class p)) w g g' ->
  w <> [] /\ forallb p w = true /\ g' = g.
Proof.
  intros (w1 & w2 & g1 & -> & (x & -> & Hx & ->) & H). simpl in H.
  split; [ discriminate | ].
  assert (forallb p w2 = true /\ g' = g) as [Hw ->].
  { clear Hx. induction H as [ | u1 u2 g g1 g2 (y & -> & Hy & ->) _ IH ].
    - auto.
    - destruct IH as [IH ->]. simpl. rewrite Hy, IH. auto. }
  simpl. rewrite Hx, Hw. auto.
Qed.

(** Inclusion of one character class in another, decided on the 256
    characters. *)
Lemma class_incl (p q : ascii -> bool) :
  forallb (fun c => implb (p c) (q c)) all_chars = true ->
  forall w, forallb p w = true -> forallb q w = true.
Proof.
  intros H w Hw. rewrite forallb_forall in *. intros c Hc.
  specialize (H c (in_all_chars c)). rewrite (Hw c Hc) in H. exact H.
Qed.

(* ------------------------------------------------------------------ *)
(** ** Cutting a string at a character *)

Section Cut.
Variable c : ascii.

Lemma after_app (u v : str) :
  forallb (Py.other_than c) u = true -> after c (u ++ c :: v) = Some v.
Proof.
  induction u as [ | x u IH ]; simpl.
  - now rewrite Ascii.eqb_refl.
  - intros [Hx Hu]%andb_true_iff. unfold Py.other_than in Hx.
    apply negb_true_iff in Hx. rewrite Hx. auto.
Qed.

Lemma before_app (u v : str) :
  forallb (Py.other_than c) u = true -> before c (u ++ c :: v) = Some u.
Proof.
  induction u as [ | x u IH ]; simpl.
  - now rewrite Ascii.eqb_refl.
  - intros [Hx Hu]%andb_true_iff. unfold Py.other_than in Hx.
    apply negb_true_iff in Hx. rewrite Hx, (IH Hu). reflexivity.
Qed.

(** A string is free of [c], or has a first [c]. *)
Lemma first_occurrence (u : str) :
  forallb (Py.other_than c) u = true \/
  exists p q, u = p ++ c :: q /\ forallb (Py.other_than c) p = true.
Proof.
  induction u as [ | x u IH ]; [ now left | ].
  destruct (Ascii.eqb x c) eqn:Hx.
  - right. apply Ascii.eqb_eq in Hx. subst x. exists [], u. auto.
  - assert (Hx' : Py.other_than c x = true)
      by (unfold Py.other_than; now rewrite Hx).
    destruct IH as [ IH | (p & q & -> & Hp) ].
    + left. cbn [forallb]. now rewrite Hx', IH.
    + right. exists (x :: p), q. cbn [forallb]. now rewrite Hx', Hp.
Qed.

Lemma split_free (u : str) :
  forallb (Py.other_than c) u = true -> Py.split c u = [u].
Proof.
  induction u as [ | x u IH ]; simpl; [ reflexivity | ].
  intros [Hx Hu]%andb_true_iff. unfold Py.other_than in Hx.
  apply negb_true_iff in Hx. rewrite Hx, (IH Hu). reflexivity.
Qed.

Lemma split_app (u v : str) :
  forallb (Py.other_than c) u = true ->
  Py.split c (u ++ c :: v) = u :: Py.split c v.
Proof.
  induction u as [ | x u IH ]; simpl.
  - now rewrite Ascii.eqb_refl.
  - intros [Hx Hu]%andb_true_iff. unfold Py.other_than in Hx.
    apply negb_true_iff in Hx. rewrite Hx, (IH Hu). reflexivity.
Qed.
End Cut.

Lemma word_not_colon (w : str) :
  forallb Py.re_word w = true -> forallb (Py.other_than ":") w = true.
Proof. apply class_incl. vm_compute. reflexivity. Qed.

Lemma word_not_bracket (w : str) :
  forallb Py.re_word w = true -> forallb (Py.other_than "]") w = true.
Proof. apply class_incl. vm_compute. reflexivity. Qed.

(* ------------------------------------------------------------------ *)
(** ** What a line that [log_pattern] matches looks like *)

(** The head of a concatenation is a literal: take it off. *)
Ltac peel_lit H := destruct H as (? & ? & ? & -> & [-> ->] & H).

(** The head of a concatenation is a group around [p+]: name what it
    matched, that it is not empty and that it is in the class. *)
Tactic Notation "peel_field" hyp(H) "as" ident(x) ident(H0) ident(Hx) :=
  destruct H as (x & ? & ? & -> & (? & Hx & ->) & H);
  apply matches_plus_class in Hx as (H0 & Hx & ->).

Lemma log_pattern_shape (line : str) (m : groups) :
  re_match log_pattern line = Some m ->
  exists pre th ctx a b c tl,
    line = pre ++ "[" :: th ++ "]" :: "[" :: ctx ++ ":" :: a ++ ":" :: b
               ++ ":" :: c ++ "]" :: tl
    /\ forallb (Py.other_than "[") pre = true
    /\ (th <> [] /\ forallb (Py.other_than "]") th = true)
    /\ (ctx <> [] /\ forallb (Py.other_than ":") ctx = true)
    /\ wordy a /\ wordy b /\ wordy c
    /\ group m 2 = th /\ group m 3 = ctx
    /\ group m 4 = a /\ group m 5 = b /\ group m 6 = c.
Proof.
  intros H. apply re_match_sound in H as (w & s' & -> & H).
  unfold log_pattern in H.
  destruct H as (ts & ? & ? & -> & (g0 & Hts & ->) & H).
  destruct H as (sp & ? & ? & -> & Hsp & H).
  peel_lit H. peel_field H as th Hth0 Hth.
  peel_lit H. peel_lit H. peel_field H as ctx Hctx0 Hctx.
  peel_lit H. peel_field H as a Ha0 Ha.
  peel_lit H. peel_field H as b Hb0 Hb.
  peel_lit H. peel_field H as c Hc0 Hc.
  destruct H as (? & tl & ? & -> & [-> ->] & H).
  assert (Hpre : forallb (Py.other_than "[") (ts ++ sp) = true).
  { rewrite forallb_app. apply andb_true_iff. split.
    - eapply (matches_alphabet (Py.other_than "[")) in Hts;
        [ exact Hts | vm_compute; reflexivity ].
    - eapply (matches_alphabet (Py.other_than "[")) in Hsp;
        [ exact Hsp | vm_compute; reflexivity ]. }
  apply matches_plus_class in Hsp as (_ & _ & ->).
  assert (Hm : forall j, (2 <= j <= 6)%nat ->
                         group m j = group (<[6:=c]> (<[5:=b]> (<[4:=a]> (<[3:=ctx]> (<[2:=th]> (<[1:=ts]> g0)))))) j).
  { intros j Hj. unfold group. f_equal.
    eapply matches_frame; [ exact H | ]. simpl. lia. }
  exists (ts ++ sp), th, ctx, a, b, c, (tl ++ s').
  split.
  { repeat (rewrite <- ?app_assoc; simpl). reflexivity. }
  unfold wordy. repeat (split; [ assumption | ]).
  rewrite !Hm by lia. unfold group.
  repeat split; now simplify_map_eq.
Qed.

(** The same for an accepted line and the record made from it. *)
Lemma parse_shape (E : env) (line : str) (rec : log_data) :
  parse_log_line E line = Some rec ->
  exists pre tl,
    line = pre ++ "[" :: thread rec ++ "]" :: "[" :: service_context rec
               ++ ":" :: trace_id rec ++ ":" :: parent_span_id rec
               ++ ":" :: span_id rec ++ "]" :: tl
    /\ forallb (Py.other_than "[") pre = true
    /\ forallb (Py.other_than "]") (thread rec) = true
    /\ forallb (Py.other_than ":") (service_context rec) = true
    /\ wordy (trace_id rec) /\ wordy (parent_span_id rec)
    /\ wordy (span_id rec).
Proof.
  unfold parse_log_line. destruct (re_match log_pattern line) as [ m | ] eqn:Hm;
    [ | discriminate ].
  intros [= <-]. cbn [thread service_context trace_id parent_span_id span_id].
  apply log_pattern_shape in Hm
    as (pre & th & ctx & a & b & c & tl & -> & Hpre & [_ Hth] & [_ Hctx]
        & Ha & Hb & Hc & -> & -> & -> & -> & ->).
  exists pre, tl. auto 10.
Qed.

(** The second bracketed group of an accepted line has the four segments
    that became the record, unless the context field itself runs over a
    closing bracket: then the group has no colon at all, and another
    closing bracket stands behind it. *)
Lemma parsed_group (E : env) (line : str) (rec : log_data) :
  parse_log_line E line = Some rec ->
  exists grp,
    second_bracket_group line = Some grp
    /\ (segments grp = [service_context rec; trace_id rec;
                        parent_span_id rec; span_id rec]
        \/ (exists p, segments grp = [p])
           /\ exists rest, after_second_group line = Some rest
                           /\ forallb (Py.other_than "]") rest = false).
Proof.
  intros H.
  apply parse_shape in H
    as (pre & tl & -> & Hpre & Hth & Hctx & [_ Ha] & [_ Hb] & [_ Hc]).
  unfold second_bracket_group, after_second_group.
  rewrite (after_app "[" _ _ Hpre), (after_app "]" _ _ Hth).
  cbn [after]. rewrite Ascii.eqb_refl.
  destruct (first_occurrence "]" (service_context rec))
    as [ Hfree | (p & q & Hpq & Hp) ].
  - exists (service_context rec ++ ":" :: trace_id rec ++ ":"
              :: parent_span_id rec ++ ":" :: span_id rec).
    split.
    + rewrite <- (before_app "]" (service_context rec ++ ":" :: trace_id rec
                     ++ ":" :: parent_span_id rec ++ ":" :: span_id rec) tl).
      * f_equal. repeat (rewrite <- ?app_assoc; simpl). reflexivity.
      * repeat first [ rewrite forallb_app | progress cbn [forallb] ].
        rewrite Hfree, !word_not_bracket by assumption. reflexivity.
    + left. unfold segments.
      rewrite (split_app ":" _ _ Hctx).
      rewrite (split_app ":" _ _ (word_not_colon _ Ha)).
      rewrite (split_app ":" _ _ (word_not_colon _ Hb)).
      rewrite (split_free ":" _ (word_not_colon _ Hc)). reflexivity.
  - exists p. rewrite Hpq, <- app_assoc. cbn [app].
    rewrite (before_app "]" _ _ Hp), (after_app "]" _ _ Hp).
    split; [ reflexivity | ]. right. split.
    + exists p. apply split_free.
      rewrite Hpq, forallb_app in Hctx. now apply andb_true_iff in Hctx as [? _].
    + eexists. split; [ reflexivity | ].
      repeat first [ rewrite forallb_app | progress cbn [forallb] ].
      rewrite !andb_false_r. reflexivity.
Qed.

(* ------------------------------------------------------------------ *)
(** ** The transport, the span of a record, the loop *)

Lemma send_spec (E : env) (span : Span) (w : world) :
  send E span w =
  (Return tt,
   {| uuid_calls := uuid_calls w;
      requests := span :: requests w;
      errors := transport_errors (backend E (length (requests w))) ++ errors w |}).
Proof.
  unfold send, try_except, bind, session_post, transport_errors.
  destruct (backend E (length (requests w))) as [ st text | e ].
  - unfold raise_for_status.
    destruct ((400 <=? st)%Z && (st <? 600)%Z); reflexivity.
  - destruct e; reflexivity.
Qed.

Lemma kept_parent_spec (p : str) :
  (if Py.truthy p && negb (bool_decide (p = s! "None"))
   then if malformed p then None else Some p
   else None) = kept_parent (Some p).
Proof.
  unfold kept_parent, valid_id, malformed.
  destruct p as [ | x p ]; [ reflexivity | ].
  cbn [Py.truthy andb]. case_bool_decide as Hp.
  - rewrite Hp. reflexivity.
  - cbn [negb]. destruct (len_16_or_32 (x :: p)), (all_hex (x :: p)); reflexivity.
Qed.

Lemma normalize_ids_spec (E : env) (t s : str) (p : option str) (w : world) :
  normalize_ids E t s p w =
  (Return (ids_of E (uuid_calls w) t s p),
   advance ((if regenerated t then 1 else 0) + (if regenerated s then 1 else 0)) w).
Proof.
  unfold normalize_ids, ids_of, bind, ret, uuid4_hex, advance, fresh.
  fold (regenerated t). fold (regenerated s).
  assert (Hp : match p with
               | Some p0 =>
                   if Py.truthy p0 && negb (bool_decide (p0 = s! "None"))
                   then if malformed p0 then None else Some p0
                   else None
               | None => None
               end = kept_parent p)
    by (destruct p; [ apply kept_parent_spec | reflexivity ]).
  rewrite Hp. destruct w as [n rq er].
  destruct (regenerated t), (regenerated s); reflexivity.
Qed.

(** Leaving the block for a span that is not handed over. *)
Lemma zipkin_span_unsent (E : env) (span : Span) (w : world) :
  handed_over span = false ->
  zipkin_span E span w
  = (match unsent_exit E span with Some e => Raise e | None => Return tt end, w).
Proof.
  unfold handed_over, zipkin_span. intros H. apply negb_false_iff in H.
  rewrite H. now destruct (unsent_exit E span).
Qed.

Lemma zipkin_span_sent (E : env) (span : Span) (w : world) :
  handed_over span = true -> zipkin_span E span w = send E span w.
Proof.
  unfold handed_over, zipkin_span. intros H. apply negb_true_iff in H.
  now rewrite H.
Qed.

Lemma send_to_zipkin_effect (E : env) (rec : log_data) (w : world) :
  send_to_zipkin E (Some rec) w = (Return tt, record_effect E rec w).
Proof.
  unfold send_to_zipkin, try_except, bind, record_effect.
  unfold uuid4_hex at 1 2. cbn [uuid_calls requests errors].
  rewrite normalize_ids_spec. cbn [uuid_calls]. fold (span_of E rec (uuid_calls w)).
  destruct (handed_over (span_of E rec (uuid_calls w))) eqn:Hh.
  - rewrite (zipkin_span_sent _ _ _ Hh), send_spec. unfold advance, draws.
    cbn [uuid_calls requests errors]. do 2 f_equal. lia.
  - rewrite (zipkin_span_unsent _ _ _ Hh). unfold advance, draws, exit_errors.
    cbn [uuid_calls requests errors].
    destruct (unsent_exit E (span_of E rec (uuid_calls w))) as [ e | ].
    + unfold logging_error, bind.
      destruct (is_ZipkinError e); cbn [uuid_calls requests errors];
        do 2 f_equal; lia.
    + do 2 f_equal. lia.
Qed.

Lemma process_line_effect (E : env) (line : str) (n : nat) (w : world) :
  process_line E line n w
  = (Return (if accepts E line then S n else n), line_effect E line w).
Proof.
  unfold process_line, try_except, bind, accepts, line_effect.
  destruct (parse_log_line E line) as [ rec | ]; [ | reflexivity ].
  now rewrite send_to_zipkin_effect.
Qed.

Lemma accepted_cons (E : env) (line : str) (lines : list str) :
  accepted E (line :: lines)
  = ((if accepts E line then 1 else 0) + accepted E lines)%nat.
Proof.
  unfold accepted. cbn [List.filter]. destruct (accepts E line); reflexivity.
Qed.

Lemma read_lines_effect (E : env) (lines : list str) :
  forall (n : nat) (w : world),
    read_lines E lines n w
    = (Return (n + accepted E lines)%nat, lines_effect E lines w).
Proof.
  induction lines as [ | line lines IH ]; intros n w.
  - cbn. unfold ret. do 2 f_equal. lia.
  - cbn [read_lines]. unfold bind. rewrite process_line_effect, IH.
    rewrite accepted_cons. unfold lines_effect. cbn [fold_left].
    destruct (accepts E line); do 2 f_equal; lia.
Qed.

Lemma lines_effect_cons (E : env) (line : str) (lines : list str) (w : world) :
  lines_effect E (line :: lines) w = lines_effect E lines (line_effect E line w).
Proof. reflexivity. Qed.

Lemma main_effect (E : env) (lines : list str) :
  main E lines world0 = (Return (accepted E lines), lines_effect E lines world0).
Proof. unfold main. now rewrite read_lines_effect. Qed.

Lemma record_effect_calls (E : env) (rec : log_data) (w : world) :
  uuid_calls (record_effect E rec w) = (draws rec + uuid_calls w)%nat.
Proof.
  unfold record_effect. now destruct (handed_over (span_of E rec (uuid_calls w))).
Qed.

Lemma record_effect_requests (E : env) (rec : log_data) (w : world) :
  requests (record_effect E rec w)
  = if handed_over (span_of E rec (uuid_calls w))
    then span_of E rec (uuid_calls w) :: requests w
    else requests w.
Proof.
  unfold record_effect. now destruct (handed_over (span_of E rec (uuid_calls w))).
Qed.

(* ------------------------------------------------------------------ *)
(** ** Fresh identifiers *)

Lemma hex_digit_lower (d : N) : lower_hexdigit (hex_digit d) = true.
Proof.
  unfold hex_digit. generalize (N.to_nat d) as n. intros n.
  do 16 (destruct n as [ | n ]; [ reflexivity | ]).
  destruct n; reflexivity.
Qed.

Lemma hex_length (width : nat) : forall v, length (hex width v) = width.
Proof.
  induction width as [ | width IH ]; intros v; simpl; [ reflexivity | ].
  rewrite length_app, IH. simpl. lia.
Qed.

Lemma hex_lower (width : nat) :
  forall v, forallb lower_hexdigit (hex width v) = true.
Proof.
  induction width as [ | width IH ]; intros v; simpl; [ reflexivity | ].
  rewrite forallb_app, IH. simpl. now rewrite hex_digit_lower.
Qed.

Lemma lower_hex_is_hex (x : str) :
  forallb lower_hexdigit x = true -> all_hex x = true.
Proof. apply class_incl. vm_compute. reflexivity. Qed.

Lemma fresh_length (E : env) (n : nat) : length (fresh E n) = 32%nat.
Proof. apply hex_length. Qed.

Lemma fresh_lower (E : env) (n : nat) :
  forallb lower_hexdigit (fresh E n) = true.
Proof. apply hex_lower. Qed.

Lemma fresh_valid (E : env) (n : nat) : valid_id (fresh E n) = true.
Proof.
  unfold valid_id, len_16_or_32. rewrite fresh_length.
  now rewrite (lower_hex_is_hex _ (fresh_lower E n)).
Qed.

Lemma malformed_valid (x : str) : malformed x = negb (valid_id x).
Proof.
  unfold malformed, valid_id. now destruct (len_16_or_32 x), (all_hex x).
Qed.

Lemma regenerated_iff (x : str) :
  regenerated x = true <-> x <> [] /\ valid_id x = false.
Proof.
  unfold regenerated. rewrite malformed_valid.
  destruct x as [ | c x ]; cbn [Py.truthy andb].
  - split; [ discriminate | intros [[] _]; reflexivity ].
  - rewrite negb_true_iff. split; [ intros H; split; [ discriminate | exact H ] | tauto ].
Qed.

Lemma valid_not_regenerated (x : str) :
  valid_id x = true -> regenerated x = false.
Proof.
  intros H. destruct (regenerated x) eqn:Hr; [ | reflexivity ].
  apply regenerated_iff in Hr as [_ Hr]. congruence.
Qed.

Lemma kept_parent_valid (p : option str) (x : str) :
  kept_parent p = Some x -> p = Some x /\ valid_id x = true.
Proof.
  destruct p as [ y | ]; [ | discriminate ]. simpl.
  destruct (valid_id y) eqn:Hy; [ | discriminate ]. intros [= <-]. auto.
Qed.


Lemma advance_0 (w : world) : advance 0 w = w.
Proof. now destruct w. Qed.

Lemma kept_parent_idem (p : option str) :
  kept_parent (kept_parent p) = kept_parent p.
Proof.
  destruct p as [ x | ]; [ | reflexivity ]. simpl.
  destruct (valid_id x) eqn:Hx; [ | reflexivity ]. simpl. now rewrite Hx.
Qed.

(** What lines 165-173 leave in an identifier passes unchanged through
    them. *)
Lemma settled_not_regenerated (E : env) (n : nat) (x : str) :
  regenerated (if regenerated x then fresh E n else x) = false.
Proof.
  destruct (regenerated x) eqn:Hx; [ | exact Hx ].
  apply valid_not_regenerated, fresh_valid.
Qed.

(** The span of a record is handed over exactly when the span id of the
    record has 16 hexadecimal digits: an id of 32 digits is kept, any
    other is replaced by 32 digits. *)
Lemma handed_over_sendable (E : env) (rec : log_data) (n : nat) :
  span_id rec <> [] -> handed_over (span_of E rec n) = sendable rec.
Proof.
  intros Hne. unfold handed_over, span_of, build_span, ids_of, sendable.
  cbn [zipkin_attrs za_span_id].
  destruct (regenerated (span_id rec)) eqn:Hr.
  - rewrite fresh_length. apply regenerated_iff in Hr as [_ Hv].
    unfold valid_id, len_16_or_32 in Hv.
    destruct (length (span_id rec) =? 16)%nat; [ | reflexivity ].
    simpl in Hv. now rewrite Hv.
  - assert (Hv : valid_id (span_id rec) = true).
    { destruct (valid_id (span_id rec)) eqn:Hv; [ reflexivity | ].
      assert (regenerated (span_id rec) = true) by (apply regenerated_iff; auto).
      congruence. }
    unfold valid_id, len_16_or_32 in Hv. apply andb_true_iff in Hv as [Hlen ->].
    destruct (length (span_id rec) =? 16)%nat eqn:H16.
    + apply Nat.eqb_eq in H16. now rewrite H16.
    + simpl in Hlen. now rewrite Hlen.
Qed.

Lemma sendable_nonempty (rec : log_data) :
  sendable rec = true -> span_id rec <> [].
Proof.
  unfold sendable. intros H Hnil. rewrite Hnil in H. discriminate.
Qed.

(** One turn of the loop on an accepted line whose span id has 16
    hexadecimal digits. *)
Lemma process_line_accepted (E : env) (line : str) (rec : log_data)
      (n : nat) (w : world) :
  parse_log_line E line = Some rec ->
  sendable rec = true ->
  exists w',
    process_line E line n w = (Return (S n), w')
    /\ requests w'
       = build_span E rec (ids_of E (2 + uuid_calls w) (trace_id rec)
                                  (span_id rec) (Some (parent_span_id rec)))
         :: requests w
    /\ errors w' = transport_errors (backend E (length (requests w))) ++ errors w.
Proof.
  intros H Hs. rewrite process_line_effect. unfold accepts, line_effect.
  rewrite H. eexists. split; [ reflexivity | ].
  unfold record_effect.
  rewrite (handed_over_sendable E rec _ (sendable_nonempty rec Hs)), Hs.
  split; reflexivity.
Qed.

(** The run on a single such line. *)
Lemma main_single (E : env) (line : str) (rec : log_data) :
  parse_log_line E line = Some rec ->
  sendable rec = true ->
  exists w',
    main E [line] world0 = (Return 1%nat, w')
    /\ requests w'
       = [build_span E rec (ids_of E 2 (trace_id rec) (span_id rec)
                                   (Some (parent_span_id rec)))]
    /\ errors w' = transport_errors (backend E 0).
Proof.
  intros H Hs. unfold main. cbn [read_lines]. unfold bind.
  destruct (process_line_accepted E line rec 0 world0 H Hs) as (w' & -> & Hr & He).
  exists w'. split; [ reflexivity | ]. split; [ exact Hr | ].
  rewrite He. simpl. apply app_nil_r.
Qed.

(* ------------------------------------------------------------------ *)
(** ** Identifier handling (lines 160-186) *)

(** C3: whatever the parent id is, the literal "None" and the empty string
    count as absent, a parent that fails the rule (hexadecimal, 16 or 32
    long) is dropped, a parent that passes is kept as it is, and no
    identifier is ever drawn for it. *)
Theorem C3_parent_kept_or_dropped (E : env) (t s : str) (p : option str) (w : world) :
  exists t' s',
    normalize_ids E t s p w
    = (Return (t', s', match p with
                       | Some x => if valid_id x then Some x else None
                       | None => None
                       end),
       advance ((if regenerated t then 1 else 0) + (if regenerated s then 1 else 0)) w)
    /\ valid_id (s! "None") = false
    /\ valid_id [] = false.
Proof.
  rewrite normalize_ids_spec. unfold ids_of, kept_parent.
  eexists _, _. split; [ reflexivity | ]. split; reflexivity.
Qed.

(** C6: identifiers that already satisfy the rule pass unchanged (and
    nothing is drawn); and for every input, what comes out passes
    unchanged when it is put in again. *)
Theorem C6_valid_unchanged_and_idempotent
        (E : env) (t s : str) (p : option str) (w : world) :
  (valid_id t = true -> valid_id s = true ->
   (forall x, p = Some x -> valid_id x = true) ->
   normalize_ids E t s p w = (Return (t, s, p), w))
  /\ (exists t' s' p' w',
         normalize_ids E t s p w = (Return (t', s', p'), w')
         /\ forall w2, normalize_ids E t' s' p' w2 = (Return (t', s', p'), w2)).
Proof.
  split.
  - intros Ht Hs Hp. rewrite normalize_ids_spec. unfold ids_of.
    rewrite (valid_not_regenerated _ Ht), (valid_not_regenerated _ Hs).
    rewrite advance_0. do 2 f_equal.
    destruct p as [ x | ]; [ | reflexivity ]. simpl. now rewrite (Hp x eq_refl).
  - rewrite normalize_ids_spec. unfold ids_of. eexists _, _, _, _.
    split; [ reflexivity | ]. intros w2.
    rewrite normalize_ids_spec. unfold ids_of.
    rewrite !settled_not_regenerated, kept_parent_idem, advance_0. reflexivity.
Qed.

Lemma C6_witness :
  normalize_ids (answering 200) (s! "4bf92f3577b34da6a3ce929d0e0e4736")
                (s! "00f067aa0ba902b8") (Some (s! "00f067aa0ba902b7")) world0
  = (Return (s! "4bf92f3577b34da6a3ce929d0e0e4736", s! "00f067aa0ba902b8",
             Some (s! "00f067aa0ba902b7")), world0).
Proof.
  apply (proj1 (C6_valid_unchanged_and_idempotent (answering 200) _ _ _ world0)).
  - reflexivity.
  - reflexivity.
  - intros x [= <-]. reflexivity.
Defined.


Lemma settled_valid (E : env) (n : nat) (x : str) :
  x <> [] -> valid_id (if regenerated x then fresh E n else x) = true.
Proof.
  intros Hx. destruct (regenerated x) eqn:Hr; [ apply fresh_valid | ].
  destruct (valid_id x) eqn:Hv; [ reflexivity | ].
  assert (regenerated x = true) by (apply regenerated_iff; auto). congruence.
Qed.

(** Every request of the loop carries identifiers that satisfy the rule,
    if those made before do. *)
Lemma read_lines_ids_ok (E : env) (lines : list str) :
  forall (n : nat) (w : world),
    Forall (fun span => ids_ok (zipkin_attrs span)) (requests w) ->
    Forall (fun span => ids_ok (zipkin_attrs span))
           (requests (snd (read_lines E lines n w))).
Proof.
  induction lines as [ | line lines IH ]; intros n w Hw; [ exact Hw | ].
  cbn [read_lines]. unfold bind. rewrite process_line_effect.
  apply IH. unfold line_effect.
  destruct (parse_log_line E line) as [ rec | ] eqn:Hp; [ | exact Hw ].
  rewrite record_effect_requests.
  destruct (handed_over (span_of E rec (uuid_calls w))); [ | exact Hw ].
  constructor; [ | exact Hw ].
  apply parse_shape in Hp
    as (_ & _ & _ & _ & _ & _ & [Ht _] & _ & [Hs _]).
  unfold span_of, build_span, ids_of, ids_ok.
  cbn [zipkin_attrs za_trace_id za_span_id za_parent_span_id].
  split; [ now apply settled_valid | ]. split; [ now apply settled_valid | ].
  intros x Hx. now apply kept_parent_valid in Hx.
Qed.

(** C4, as the code has it: when the trace and span ids that come in are
    not empty, every field that comes out satisfies the rule of the code,
    16 or 32 hexadecimal digits of either case; an identifier that was
    replaced is 32 lowercase digits, one that was kept is the input
    itself.  The ids of a parsed line are never empty, so every span that
    a run sends satisfies the rule. *)
Theorem C4_ids_satisfy_rule (E : env) :
  (forall (t s : str) (p : option str) (w : world),
      t <> [] -> s <> [] ->
      exists t' s' p' w',
        normalize_ids E t s p w = (Return (t', s', p'), w')
        /\ valid_id t' = true /\ valid_id s' = true
        /\ (forall x, p' = Some x -> valid_id x = true)
        /\ (t' = t \/ length t' = 32%nat /\ forallb lower_hexdigit t' = true)
        /\ (s' = s \/ length s' = 32%nat /\ forallb lower_hexdigit s' = true))
  /\ (forall lines : list str,
         Forall (fun span => ids_ok (zipkin_attrs span))
                (requests (snd (main E lines world0)))).
Proof.
  split.
  - intros t s p w Ht Hs. rewrite normalize_ids_spec. unfold ids_of.
    eexists _, _, _, _. split; [ reflexivity | ].
    split; [ now apply settled_valid | ]. split; [ now apply settled_valid | ].
    split; [ intros x Hp; now apply kept_parent_valid in Hp | ].
    split.
    + destruct (regenerated t); [ right | now left ].
      split; [ apply fresh_length | apply fresh_lower ].
    + destruct (regenerated s); [ right | now left ].
      split; [ apply fresh_length | apply fresh_lower ].
  - intros lines. apply read_lines_ids_ok. constructor.
Qed.

Lemma C4_witness :
  exists t' s' p' w',
    normalize_ids (answering 200) (s! "xyz") (s! "00F067AA0BA902B8")
                  (Some (s! "None")) world0 = (Return (t', s', p'), w')
    /\ valid_id t' = true /\ valid_id s' = true
    /\ (forall x, p' = Some x -> valid_id x = true)
    /\ (t' = s! "xyz" \/ length t' = 32%nat /\ forallb lower_hexdigit t' = true)
    /\ (s' = s! "00F067AA0BA902B8"
        \/ length s' = 32%nat /\ forallb lower_hexdigit s' = true).
Proof.
  apply (proj1 (C4_ids_satisfy_rule (answering 200))); discriminate.
Defined.

(** Against C4 as stated: an id of 16 uppercase hexadecimal digits comes
    out as it went in, and it is not lowercase. *)
Lemma C4_uppercase_id_kept :
  exists s' p' w',
    normalize_ids (answering 200) (s! "4BF92F3577B34DA6") (s! "00f067aa0ba902b8")
                  None world0
    = (Return (s! "4BF92F3577B34DA6", s', p'), w')
    /\ forallb lower_hexdigit (s! "4BF92F3577B34DA6") = false.
Proof.
  eexists _, _, _. split; vm_compute; reflexivity.
Qed.




(* ------------------------------------------------------------------ *)
(** ** The span of a record (lines 188-244) *)

Lemma long_message_line_parsed (E : env) :
  parse_log_line E long_message_line = Some (long_message_record E).
Proof. vm_compute. reflexivity. Qed.

(** C5, as the code has it: for a message of 256 characters or more the
    [message] tag is the first 253 characters of the message followed by
    three dots, 256 characters in all, so its first 253 characters are a
    prefix of the message, and the tag as a whole is a prefix of the
    message exactly when the message itself has three dots at positions
    253 to 255; a shorter message is the tag. *)
Theorem C5_message_tag (E : env) (rec : log_data) (ids : str * str * option str) :
  ((256 <= length (message rec))%nat ->
   binary_annotations (build_span E rec ids) !! "message"%string
   = Some (take 253 (message rec) ++ s! "...")
   /\ length (take 253 (message rec) ++ s! "...") = 256%nat
   /\ take 253 (take 253 (message rec) ++ s! "...") = take 253 (message rec)
   /\ ((exists rest, message rec = (take 253 (message rec) ++ s! "...") ++ rest)
       <-> take 3 (drop 253 (message rec)) = s! "..."))
  /\ ((length (message rec) < 256)%nat ->
      binary_annotations (build_span E rec ids) !! "message"%string
      = Some (message rec)).
Proof.
  destruct ids as [[t s] p]. unfold build_span. cbn [binary_annotations].
  unfold make_tags. split; intros Hlen.
  - apply Nat.ltb_ge in Hlen as Hlt. rewrite Hlt, lookup_insert_eq.
    split; [ reflexivity | ].
    assert (Htake : length (take 253 (message rec)) = 253%nat)
      by (rewrite length_take; lia).
    split; [ | split ].
    + rewrite length_app, Htake. reflexivity.
    + rewrite take_app_le by lia. apply take_ge. lia.
    + split.
      * intros [rest Hrest].
        rewrite <- (take_drop 253 (message rec)) in Hrest at 1.
        rewrite <- app_assoc in Hrest. apply app_inv_head in Hrest.
        rewrite Hrest. reflexivity.
      * intros Hdots. exists (drop 3 (drop 253 (message rec))).
        rewrite <- Hdots, <- app_assoc, (take_drop 3), (take_drop 253).
        reflexivity.
  - apply Nat.ltb_lt in Hlen. now rewrite Hlen, lookup_insert_eq.
Qed.

Lemma C5_witness :
  (binary_annotations
     (build_span (answering 200) (long_message_record (answering 200))
                 ([], [], None)) !! "message"%string
   = Some (take 253 (message (long_message_record (answering 200))) ++ s! "...")
   /\ length (take 253 (message (long_message_record (answering 200))) ++ s! "...")
      = 256%nat
   /\ take 253 (take 253 (message (long_message_record (answering 200))) ++ s! "...")
      = take 253 (message (long_message_record (answering 200)))
   /\ ((exists rest,
          message (long_message_record (answering 200))
          = (take 253 (message (long_message_record (answering 200))) ++ s! "...")
            ++ rest)
       <-> take 3 (drop 253 (message (long_message_record (answering 200))))
           = s! "..."))
  /\ binary_annotations
       (build_span (answering 200) (scenario_1_record (answering 200))
                   ([], [], None)) !! "message"%string
     = Some (s! "operation start").
Proof.
  split.
  - apply (proj1 (C5_message_tag (answering 200)
                    (long_message_record (answering 200)) ([], [], None))).
    simpl. lia.
  - apply (proj2 (C5_message_tag (answering 200)
                    (scenario_1_record (answering 200)) ([], [], None))).
    simpl. lia.
Defined.

(** Against C5 as stated: for a message of 256 letters the tag ends in
    three dots and is no prefix of the message. *)
Lemma C5_tag_not_a_prefix :
  exists rec tag,
    parse_log_line (answering 200) long_message_line = Some rec
    /\ length (message rec) = 256%nat
    /\ make_tags rec !! "message"%string = Some tag
    /\ ~ (exists rest, message rec = tag ++ rest).
Proof.
  eexists _, _. split; [ vm_compute; reflexivity | ].
  split; [ reflexivity | ]. split; [ vm_compute; reflexivity | ].
  intros [rest H]. apply (f_equal (fun l => nth 253 l "x")) in H.
  vm_compute in H. discriminate.
Qed.

(** C1, as the code has it: the line of scenario 1 has no white space
    between the timestamp and the thread bracket, so it is not parsed and
    yields no span.  With one space there, the record goes through the id
    checks unchanged and the span is named "Worker.process (1)" (no word
    stands before "operation"), has the trace id
    4bf92f3577b34da6a3ce929d0e0e4736, the parent 00f067aa0ba902b7, the span
    id 00f067aa0ba902b8 and the tag level=INFO. *)
Theorem C1_scenario_1 (E : env) :
  parse_log_line E scenario_1_line = None
  /\ parse_log_line E scenario_1_spaced = Some (scenario_1_record E)
  /\ exists w' span,
       main E [scenario_1_spaced] world0 = (Return 1%nat, w')
       /\ requests w' = [span]
       /\ span = scenario_1_span E
       /\ span_name span = s! "Worker.process (1)"
       /\ za_trace_id (zipkin_attrs span) = s! "4bf92f3577b34da6a3ce929d0e0e4736"
       /\ za_parent_span_id (zipkin_attrs span) = Some (s! "00f067aa0ba902b7")
       /\ za_span_id (zipkin_attrs span) = s! "00f067aa0ba902b8"
       /\ binary_annotations span !! "level"%string = Some (s! "INFO").
Proof.
  split; [ vm_compute; reflexivity | ].
  assert (Hp : parse_log_line E scenario_1_spaced = Some (scenario_1_record E))
    by (vm_compute; reflexivity).
  split; [ exact Hp | ].
  destruct (main_single E _ _ Hp eq_refl) as (w' & Hm & Hreq & _).
  exists w', (scenario_1_span E).
  split; [ exact Hm | ]. split; [ exact Hreq | ].
  split; [ reflexivity | ].
  repeat split; vm_compute; reflexivity.
Qed.

(** Against C1 as stated: the line of the scenario is not parsed, and the
    run on it sends nothing. *)
Lemma C1_line_not_parsed :
  parse_log_line (answering 200) scenario_1_line = None
  /\ main (answering 200) [scenario_1_line] world0 = (Return 0%nat, world0).
Proof. split; vm_compute; reflexivity. Qed.

(* ------------------------------------------------------------------ *)
(** ** Lines that the pattern rejects *)




Lemma word_on_ascii (c : ascii) :
  (Py.ord c < 128)%N -> Py.re_word c = ascii_word c.
Proof.
  intros Hc.
  assert (H : forallb (fun c => implb (Py.ord c <? 128)%N
                                      (Bool.eqb (Py.re_word c) (ascii_word c)))
                      all_chars = true) by (vm_compute; reflexivity).
  rewrite forallb_forall in H. specialize (H c (in_all_chars c)).
  apply N.ltb_lt in Hc. rewrite Hc in H. now apply Bool.eqb_prop in H.
Qed.

(** C9, as the code has it: a line in which one of the three id segments
    of the second bracketed group is empty or has a character that [\w]
    does not match is not parsed; so the three ids of every record are
    non-empty runs of characters of [\w].  On ASCII characters [\w] is
    [[A-Za-z0-9_]]. *)
Theorem C9_ids_are_words (E : env) (line : str) :
  (forall grp i seg,
      second_bracket_group line = Some grp ->
      segments grp !! i = Some seg ->
      (1 <= i <= 3)%nat ->
      seg = [] \/ (exists c, In c seg /\ Py.re_word c = false) ->
      parse_log_line E line = None)
  /\ (forall rec,
         parse_log_line E line = Some rec ->
         wordy (trace_id rec) /\ wordy (parent_span_id rec)
         /\ wordy (span_id rec))
  /\ (forall c, (Py.ord c < 128)%N -> Py.re_word c = ascii_word c).
Proof.
  split; [ | split ].
  - intros grp i seg Hg Hi Hrange Hbad.
    destruct (parse_log_line E line) as [ rec | ] eqn:Hp; [ exfalso | reflexivity ].
    pose proof (parse_shape _ _ _ Hp)
      as (_ & _ & _ & _ & _ & _ & Ha & Hb & Hc).
    apply parsed_group in Hp as (grp' & Hg' & Hseg).
    rewrite Hg in Hg'. injection Hg' as <-.
    assert (Hw : wordy seg).
    { destruct Hseg as [ Hseg | [[p Hseg] _] ]; rewrite Hseg in Hi.
      - destruct i as [ | [ | [ | [ | i ] ] ] ]; try lia;
          simpl in Hi; injection Hi as <-; assumption.
      - destruct i as [ | i ]; [ lia | discriminate ]. }
    destruct Hw as [Hne Hall]. destruct Hbad as [ -> | (c & Hc' & Hcw) ].
    + now apply Hne.
    + rewrite forallb_forall in Hall. rewrite (Hall c Hc') in Hcw. discriminate.
  - intros rec Hp.
    apply parse_shape in Hp as (_ & _ & _ & _ & _ & _ & Ha & Hb & Hc). auto.
  - apply word_on_ascii.
Qed.

Lemma C9_witness : parse_log_line (answering 200) hyphen_line = None.
Proof.
  apply (proj1 (C9_ids_are_words (answering 200) hyphen_line)
           (s! "svc-a:4bf92f35-77b34da6:00f067aa0ba902b7:00f067aa0ba902b8")
           1%nat (s! "4bf92f35-77b34da6")).
  - vm_compute. reflexivity.
  - vm_compute. reflexivity.
  - lia.
  - right. exists "-". split; [ | reflexivity ].
    simpl. do 8 right. left. reflexivity.
Defined.

(** Against C9 as stated: U+00E9 is outside [[A-Za-z0-9_]], and the line
    whose trace id begins with it is parsed, the id going into the
    record. *)
Lemma C9_accented_id_parsed :
  exists grp seg rec,
    second_bracket_group accented_line = Some grp
    /\ segments grp !! 1%nat = Some seg
    /\ In "233" seg /\ ascii_word "233" = false
    /\ parse_log_line (answering 200) accented_line = Some rec
    /\ trace_id rec = seg.
Proof.
  eexists _, _, _. split; [ vm_compute; reflexivity | ].
  split; [ vm_compute; reflexivity | ].
  split; [ left; reflexivity | ].
  split; [ reflexivity | ].
  split; vm_compute; reflexivity.
Qed.

(* ------------------------------------------------------------------ *)
(** ** The transport and the loop *)

Lemma accepts_any_env (E E' : env) (line : str) : accepts E' line = accepts E line.
Proof.
  unfold accepts, parse_log_line. now destruct (re_match log_pattern line).
Qed.

Lemma accepted_any_env (E E' : env) (lines : list str) :
  accepted E' lines = accepted E lines.
Proof.
  unfold accepted. f_equal. apply filter_ext. intros line. apply accepts_any_env.
Qed.

(** C8, as the code has it: [send] makes one POST and returns [None]
    whatever comes of it, without raising and without a second attempt.
    An answer with a 4xx or 5xx status, or a request exception raised by
    the POST, leaves two error records in the log and nothing else.  The
    turn of the loop for an accepted line then ends with the span count
    one higher (there is no counter of errors), and the loop goes through
    all its lines and returns: no exception reaches the handlers that
    exit. *)
Theorem C8_failure_logged_not_returned (E : env) (span : Span) (w : world) :
  (exists errs,
      send E span w
      = (Return tt, {| uuid_calls := uuid_calls w;
                       requests := span :: requests w;
                       errors := errs ++ errors w |}))
  /\ (forall st text,
         backend E (length (requests w)) = Response st text ->
         (400 <= st < 600)%Z ->
         send E span w
         = (Return tt, {| uuid_calls := uuid_calls w;
                          requests := span :: requests w;
                          errors := ResponseWas (Some text)
                                    :: FailedToSend (HTTPError st text)
                                    :: errors w |}))
  /\ (forall what,
         backend E (length (requests w)) = PostRaises (RequestError what) ->
         send E span w
         = (Return tt, {| uuid_calls := uuid_calls w;
                          requests := span :: requests w;
                          errors := ResponseWas None
                                    :: FailedToSend (RequestError what)
                                    :: errors w |}))
  /\ (forall line n,
         accepts E line = true ->
         exists w', process_line E line n w = (Return (S n), w'))
  /\ (forall lines n,
         exists w', read_lines E lines n w = (Return (n + accepted E lines)%nat, w')).
Proof.
  split; [ | split; [ | split; [ | split ] ] ].
  - rewrite send_spec. eauto.
  - intros st text Hb [Hlo Hhi]. rewrite send_spec, Hb. unfold transport_errors.
    apply Z.leb_le in Hlo. apply Z.ltb_lt in Hhi. now rewrite Hlo, Hhi.
  - intros what Hb. now rewrite send_spec, Hb.
  - intros line n Ha. rewrite process_line_effect, Ha. eauto.
  - intros lines n. rewrite read_lines_effect. eauto.
Qed.

Lemma C8_witness :
  send (answering 500) (scenario_1_span (answering 500)) world0
  = (Return tt, {| uuid_calls := 0;
                   requests := [scenario_1_span (answering 500)];
                   errors := [ResponseWas (Some []);
                              FailedToSend (HTTPError 500 [])] |}).
Proof.
  apply (proj1 (proj2 (C8_failure_logged_not_returned
                         (answering 500) (scenario_1_span (answering 500)) world0))
               500%Z []).
  - reflexivity.
  - lia.
Defined.

(** Against C8 as stated: when the server answers 500, [send] returns to
    its caller what it returns after a 200, the value [None]; and the
    only counter of the loop counts the line as sent. *)
Lemma C8_send_returns_none_on_500 :
  fst (send (answering 500) (scenario_1_span (answering 500)) world0) = Return tt
  /\ fst (send (answering 200) (scenario_1_span (answering 500)) world0) = Return tt
  /\ fst (main (answering 500) [scenario_1_spaced] world0) = Return 1%nat.
Proof.
  repeat split; vm_compute; reflexivity.
Qed.

(** C10: the count that the run reports is the number of lines of which
    [parse_log_line] made a record, whatever the server did with the
    POSTs. *)
Theorem C10_count_is_accepted_lines (E : env) (lines : list str) :
  exists w',
    main E lines world0 = (Return (accepted E lines), w')
    /\ forall E', fst (main E' lines world0) = Return (accepted E lines).
Proof.
  rewrite main_effect. eexists. split; [ reflexivity | ].
  intros E'. rewrite main_effect. cbn [fst]. f_equal. apply accepted_any_env.
Qed.

(* ------------------------------------------------------------------ *)
(** ** More on the matcher: greedy runs of a class *)

Lemma run_cat_sound {A : Type} (r1 r2 : regex) (s : str) (g : groups)
      (k : str -> groups -> option A) (a : A) :
  run (Cat r1 r2) s g k = Some a ->
  exists w s' g',
    s = w ++ s' /\ matches r1 w g g' /\ run r2 s' g' k = Some a.
Proof. cbn [run]. intros H. now apply run_sound in H. Qed.

(** A pattern without groups leaves the groups as they were. *)
Lemma matches_nogroups (r : regex) :
  group_ids r = [] ->
  forall w g g', matches r w g g' -> g' = g.
Proof.
  induction r as [ | c | p | r1 IH1 r2 IH2 | r1 IH1 | i r1 IH1 ];
    cbn [group_ids matches]; intros Hg w g g' H.
  - now destruct H.
  - now destruct H.
  - now destruct H as (x & _ & _ & ->).
  - apply app_eq_nil in Hg as [Hg1 Hg2].
    destruct H as (w1 & w2 & g1 & _ & H1 & H2).
    rewrite (IH2 Hg2 _ _ _ H2). exact (IH1 Hg1 _ _ _ H1).
  - induction H as [ | w1 w2 g g1 g2 H1 _ IH ]; [ reflexivity | ].
    rewrite IH. exact (IH1 Hg _ _ _ H1).
  - discriminate.
Qed.

Lemma matches_star_class (p : ascii -> bool) (w : str) (g g' : groups) :
  matches (Star (Class p)) w g g' -> forallb p w = true /\ g' = g.
Proof.
  cbn [matches]. intros H.
  induction H as [ | u1 u2 g g1 g2 (y & -> & Hy & ->) _ IH ]; [ auto | ].
  destruct IH as [IH ->]. simpl. now rewrite Hy, IH.
Qed.

Lemma leading_behind (p : ascii -> bool) (s : str) :
  s = leading p s ++ behind p s.
Proof.
  induction s as [ | x s IH ]; simpl; [ reflexivity | ].
  destruct (p x); simpl; [ now rewrite <- IH | reflexivity ].
Qed.

Lemma leading_all (p : ascii -> bool) (s : str) :
  forallb p (leading p s) = true.
Proof.
  induction s as [ | x s IH ]; simpl; [ reflexivity | ].
  destruct (p x) eqn:Hx; simpl; [ now rewrite Hx | reflexivity ].
Qed.

(** What is behind the leading run is empty or begins outside the
    class. *)
Lemma behind_head (p : ascii -> bool) (s : str) :
  behind p s = [] \/ exists c t, behind p s = c :: t /\ p c = false.
Proof.
  induction s as [ | x s IH ]; simpl; [ now left | ].
  destruct (p x) eqn:Hx; [ exact IH | right; eauto ].
Qed.

Section Greedy.
Context {A : Type}.
Variable p : ascii -> bool.
Variable k : str -> groups -> option A.

Lemma run_star_class_nil (g : groups) :
  run (Star (Class p)) [] g k = k [] g.
Proof. reflexivity. Qed.

(** One turn of a starred class: take the character and go on; give it
    back only if all that follows fails. *)
Lemma run_star_class_cons (x : ascii) (s : str) (g : groups) :
  run (Star (Class p)) (x :: s) g k =
  if p x then
    match run (Star (Class p)) s g k with
    | Some a => Some a
    | None => k (x :: s) g
    end
  else k (x :: s) g.
Proof.
  cbn [run length]. destruct (p x); [ | reflexivity ].
  replace (length s <? S (length s))%nat with true
    by (symmetry; apply Nat.ltb_lt; lia).
  reflexivity.
Qed.

(** A starred class before a continuation that never fails takes the
    whole leading run. *)
Lemma run_star_class_total (s : str) (g : groups) :
  (forall s' g', k s' g' <> None) ->
  run (Star (Class p)) s g k = k (behind p s) g.
Proof.
  intros Hk. induction s as [ | x s IH ]; [ reflexivity | ].
  rewrite run_star_class_cons. cbn [behind]. destruct (p x); [ | reflexivity ].
  rewrite IH. destruct (k (behind p s) g) eqn:Hb; [ reflexivity | ].
  now apply Hk in Hb.
Qed.

(** A starred class takes a run of the class that ends before a
    character outside it, if the continuation accepts there. *)
Lemma run_star_class_run (w : str) (c : ascii) (t : str) (g : groups) (a : A) :
  forallb p w = true -> p c = false ->
  k (c :: t) g = Some a ->
  run (Star (Class p)) (w ++ c :: t) g k = Some a.
Proof.
  intros Hw Hc Hk. induction w as [ | x w IH ].
  - simpl app. rewrite run_star_class_cons, Hc. exact Hk.
  - simpl in Hw. apply andb_true_iff in Hw as [Hx Hw].
    simpl app. rewrite run_star_class_cons, Hx, (IH Hw). reflexivity.
Qed.
End Greedy.

Lemma take_leading (p : ascii -> bool) (s : str) :
  take (length s - length (behind p s)) s = leading p s.
Proof.
  pose proof (leading_behind p s) as Hs.
  set (l := leading p s) in *. set (b := behind p s) in *. clearbody l b.
  subst s. rewrite length_app.
  replace (length l + length b - length b)%nat with (length l) by lia.
  apply take_app_length.
Qed.

(** A group around a starred class, at the end of a pattern, captures the
    whole leading run of the class. *)
Lemma run_last_group (i : nat) (p : ascii -> bool) (s : str) (g m : groups) :
  run (Group i (Star (Class p))) s g (fun _ g' => Some g') = Some m ->
  m = <[i := leading p s]> g.
Proof.
  change (run (Group i (Star (Class p))) s g (fun _ g' => Some g'))
    with (run (Star (Class p)) s g
              (fun s' g' => Some (<[i := take (length s - length s') s]> g'))).
  rewrite run_star_class_total by (intros; discriminate).
  rewrite take_leading. now intros [= <-].
Qed.

(* ------------------------------------------------------------------ *)
(** ** The whole layout of a line that [log_pattern] matches *)

Ltac break_up :=
  repeat match goal with
         | H : ex _ |- _ => destruct H
         | H : _ /\ _ |- _ => destruct H
         end.

Lemma timestamp_layout (x : str) (g g' : groups) :
  matches (Rep 4 (Class Py.re_digit) · Lit "-" · d2 · Lit "-" · d2 · Lit "/"
           · d2 · Lit ":" · d2 · Lit ":" · d2 · Lit "."
           · Rep 3 (Class Py.re_digit)) x g g' ->
  timestamp_shaped x = true /\ g' = g.
Proof.
  intros H. split; [ | eapply matches_nogroups; [ | exact H ]; reflexivity ].
  unfold d2 in H. cbn [matches Rep] in H. break_up. subst.
  unfold timestamp_shaped. cbn -[Py.re_digit].
  repeat match goal with
         | H : Py.re_digit _ = true |- _ => rewrite H; clear H
         end.
  reflexivity.
Qed.

Lemma ends_outside_space (x : str) :
  x <> [] -> forallb (fun c => negb (Py.re_space c)) x = true ->
  exists pre c, x = pre ++ [c] /\ Py.re_space c = false.
Proof.
  intros Hx Hall. destruct (exists_last Hx) as (pre & c & ->).
  exists pre, c. split; [ reflexivity | ].
  rewrite forallb_app in Hall. apply andb_true_iff in Hall as [_ Hc].
  simpl in Hc. rewrite andb_true_r in Hc. now apply negb_true_iff in Hc.
Qed.

Lemma chunks_end_outside_space (u : str) (g g' : groups) :
  iter (matches (ws · nonspace)) u g g' ->
  u <> [] ->
  exists pre c, u = pre ++ [c] /\ Py.re_space c = false.
Proof.
  intros H. induction H as [ g | w1 w2 g g2 g3 H1 H2 IH ]; [ congruence | ].
  intros _. destruct H1 as (sp & n2 & g4 & -> & _ & Hn2).
  apply matches_plus_class in Hn2 as (Hne2 & Hn2 & _).
  destruct w2 as [ | y w2 ].
  - destruct (ends_outside_space n2 Hne2 Hn2) as (pre & c & -> & Hc).
    exists (sp ++ pre), c. split; [ | exact Hc ].
    rewrite app_nil_r, <- !app_assoc. reflexivity.
  - destruct IH as (pre & c & Hpc & Hc); [ discriminate | ].
    exists ((sp ++ n2) ++ pre), c. split; [ | exact Hc ].
    rewrite Hpc, <- !app_assoc. reflexivity.
Qed.

Lemma logger_layout (x : str) (g g' : groups) :
  matches (nonspace · Star (ws · nonspace)) x g g' ->
  trimmed x = true /\ g' = g.
Proof.
  intros H. split; [ | eapply matches_nogroups; [ | exact H ]; reflexivity ].
  destruct H as (n1 & rest & g1 & -> & Hn1 & Hrest).
  apply matches_plus_class in Hn1 as (Hne & Hn1 & ->).
  assert (Hlast : exists pre c, n1 ++ rest = pre ++ [c] /\ Py.re_space c = false).
  { destruct rest as [ | y rest ].
    - rewrite app_nil_r. now apply ends_outside_space.
    - destruct (chunks_end_outside_space _ _ _ Hrest) as (pre & c & Hpc & Hc);
        [ discriminate | ].
      exists (n1 ++ pre), c. split; [ | exact Hc ].
      rewrite Hpc, <- app_assoc. reflexivity. }
  destruct Hlast as (pre & c & Hpc & Hc).
  destruct n1 as [ | c0 n1 ]; [ congruence | ].
  simpl in Hn1. apply andb_true_iff in Hn1 as [Hc0 _].
  unfold trimmed. cbn [app]. rewrite Hc0.
  change (c0 :: n1 ++ rest) with ((c0 :: n1) ++ rest). rewrite Hpc.
  rewrite last_last, Hc. reflexivity.
Qed.

(** The head of the pattern that remains is a literal, a run of white
    space, or a group around a run of a class. *)
Ltac step_lit H :=
  apply run_cat_sound in H as (? & ? & ? & -> & [-> ->] & H).

Tactic Notation "step_blank" hyp(H) "as" ident(x) ident(H0) ident(Hx) :=
  apply run_cat_sound in H as (x & ? & ? & -> & Hx & H);
  apply matches_plus_class in Hx as (H0 & Hx & ->).

Tactic Notation "step_field" hyp(H) "as" ident(x) ident(H0) ident(Hx) :=
  apply run_cat_sound in H as (x & ? & ? & -> & (? & Hx & ->) & H);
  apply matches_plus_class in Hx as (H0 & Hx & ->).

Ltac read_group :=
  unfold group; repeat (rewrite lookup_insert_ne by lia);
  rewrite lookup_insert_eq; reflexivity.

Lemma log_pattern_layout (line : str) (m : groups) :
  re_match log_pattern line = Some m ->
  exists sp1 sp2 sp3 sp4 sp5 rest,
    line = group m 1 ++ sp1 ++ "[" :: group m 2 ++ "]" :: "[" :: group m 3
             ++ ":" :: group m 4 ++ ":" :: group m 5 ++ ":" :: group m 6
             ++ "]" :: sp2 ++ group m 7 ++ sp3 ++ group m 8 ++ sp4
             ++ "-" :: sp5 ++ rest
    /\ group m 9 = leading Py.re_dot rest
    /\ blank sp1 /\ blank sp2 /\ blank sp3 /\ blank sp4 /\ blank sp5
    /\ timestamp_shaped (group m 1) = true
    /\ (group m 2 <> [] /\ forallb (Py.other_than "]") (group m 2) = true)
    /\ (group m 3 <> [] /\ forallb (Py.other_than ":") (group m 3) = true)
    /\ wordy (group m 7)
    /\ trimmed (group m 8) = true.
Proof.
  unfold re_match, log_pattern. intros H.
  apply run_cat_sound in H as (ts & ? & ? & -> & (? & Hts & ->) & H).
  apply timestamp_layout in Hts as (Hts & ->).
  step_blank H as sp1 Hsp1 Hsp1'.
  step_lit H. step_field H as th Hth Hth'.
  step_lit H. step_lit H. step_field H as ctx Hctx Hctx'.
  step_lit H. step_field H as a Ha Ha'.
  step_lit H. step_field H as b Hb Hb'.
  step_lit H. step_field H as c Hc Hc'.
  step_lit H. step_blank H as sp2 Hsp2 Hsp2'.
  step_field H as lv Hlv Hlv'.
  step_blank H as sp3 Hsp3 Hsp3'.
  apply run_cat_sound in H as (sp3b & ? & ? & -> & Hsp3b & H).
  apply matches_star_class in Hsp3b as (Hsp3b & ->).
  apply run_cat_sound in H as (lg & ? & ? & -> & (? & Hlg & ->) & H).
  apply logger_layout in Hlg as (Hlg & ->).
  step_blank H as sp4 Hsp4 Hsp4'.
  step_lit H. step_blank H as sp5 Hsp5 Hsp5'.
  apply run_last_group in H. subst m.
  match goal with
  | |- context [ leading Py.re_dot ?r ] => rename r into rest
  end.
  assert (G1 : group (<[9:=leading Py.re_dot rest]> (<[8:=lg]> (<[7:=lv]>
                 (<[6:=c]> (<[5:=b]> (<[4:=a]> (<[3:=ctx]> (<[2:=th]>
                 (<[1:=ts]> ∅))))))))) 1 = ts) by read_group.
  assert (G2 : group (<[9:=leading Py.re_dot rest]> (<[8:=lg]> (<[7:=lv]>
                 (<[6:=c]> (<[5:=b]> (<[4:=a]> (<[3:=ctx]> (<[2:=th]>
                 (<[1:=ts]> ∅))))))))) 2 = th) by read_group.
  assert (G3 : group (<[9:=leading Py.re_dot rest]> (<[8:=lg]> (<[7:=lv]>
                 (<[6:=c]> (<[5:=b]> (<[4:=a]> (<[3:=ctx]> (<[2:=th]>
                 (<[1:=ts]> ∅))))))))) 3 = ctx) by read_group.
  assert (G4 : group (<[9:=leading Py.re_dot rest]> (<[8:=lg]> (<[7:=lv]>
                 (<[6:=c]> (<[5:=b]> (<[4:=a]> (<[3:=ctx]> (<[2:=th]>
                 (<[1:=ts]> ∅))))))))) 4 = a) by read_group.
  assert (G5 : group (<[9:=leading Py.re_dot rest]> (<[8:=lg]> (<[7:=lv]>
                 (<[6:=c]> (<[5:=b]> (<[4:=a]> (<[3:=ctx]> (<[2:=th]>
                 (<[1:=ts]> ∅))))))))) 5 = b) by read_group.
  assert (G6 : group (<[9:=leading Py.re_dot rest]> (<[8:=lg]> (<[7:=lv]>
                 (<[6:=c]> (<[5:=b]> (<[4:=a]> (<[3:=ctx]> (<[2:=th]>
                 (<[1:=ts]> ∅))))))))) 6 = c) by read_group.
  assert (G7 : group (<[9:=leading Py.re_dot rest]> (<[8:=lg]> (<[7:=lv]>
                 (<[6:=c]> (<[5:=b]> (<[4:=a]> (<[3:=ctx]> (<[2:=th]>
                 (<[1:=ts]> ∅))))))))) 7 = lv) by read_group.
  assert (G8 : group (<[9:=leading Py.re_dot rest]> (<[8:=lg]> (<[7:=lv]>
                 (<[6:=c]> (<[5:=b]> (<[4:=a]> (<[3:=ctx]> (<[2:=th]>
                 (<[1:=ts]> ∅))))))))) 8 = lg) by read_group.
  assert (G9 : group (<[9:=leading Py.re_dot rest]> (<[8:=lg]> (<[7:=lv]>
                 (<[6:=c]> (<[5:=b]> (<[4:=a]> (<[3:=ctx]> (<[2:=th]>
                 (<[1:=ts]> ∅))))))))) 9 = leading Py.re_dot rest)
    by read_group.
  rewrite G1, G2, G3, G4, G5, G6, G7, G8, G9.
  exists sp1, sp2, (sp3 ++ sp3b), sp4, sp5, rest.
  split; [ repeat (rewrite <- ?app_assoc; cbn [app]); reflexivity | ].
  split; [ reflexivity | ].
  assert (Hb3 : blank (sp3 ++ sp3b)).
  { split; [ destruct sp3; [ congruence | discriminate ] | ].
    now rewrite forallb_app, Hsp3', Hsp3b. }
  unfold blank, wordy. auto 20.
Qed.

Lemma fits_length (template x : str) :
  fits template x = true -> length x = length template.
Proof.
  revert x. induction template as [ | t template IH ]; intros [ | c x ]; simpl;
    try discriminate; [ reflexivity | ].
  intros [_ H]%andb_true_iff. now rewrite (IH _ H).
Qed.

Lemma dot_false_is_newline (c : ascii) : Py.re_dot c = false -> c = "010".
Proof.
  unfold Py.re_dot. intros H. apply negb_false_iff in H. now apply Ascii.eqb_eq.
Qed.

(** The layout again, for an accepted line and its record. *)
Lemma parse_layout (E : env) (line : str) (rec : log_data) :
  parse_log_line E line = Some rec ->
  exists sp1 sp2 sp3 sp4 sp5 rest,
    line = timestamp rec ++ sp1 ++ "[" :: thread rec ++ "]" :: "["
             :: service_context rec ++ ":" :: trace_id rec ++ ":"
             :: parent_span_id rec ++ ":" :: span_id rec ++ "]" :: sp2
             ++ level rec ++ sp3 ++ logger rec ++ sp4 ++ "-" :: sp5 ++ rest
    /\ message rec = leading Py.re_dot rest
    /\ blank sp1 /\ blank sp2 /\ blank sp3 /\ blank sp4 /\ blank sp5
    /\ timestamp_shaped (timestamp rec) = true
    /\ (thread rec <> [] /\ forallb (Py.other_than "]") (thread rec) = true)
    /\ (service_context rec <> []
        /\ forallb (Py.other_than ":") (service_context rec) = true)
    /\ wordy (level rec)
    /\ trimmed (logger rec) = true.
Proof.
  unfold parse_log_line.
  destruct (re_match log_pattern line) as [ m | ] eqn:Hm; [ | discriminate ].
  intros [= <-]. cbn. now apply log_pattern_layout.
Qed.

(* ------------------------------------------------------------------ *)
(** ** Further properties of [parse_log_line] *)

(** X1: the fields of a record are cut from the line, in the order of the
    pattern: timestamp, [[thread]], [[context:trace:parent:span]], level,
    logger, a hyphen, message, each gap a non-empty run of white space;
    the message is all the text behind the last gap up to the end of the
    line (the first line feed). *)
Theorem X1_fields_cut_from_line (E : env) (line : str) (rec : log_data) :
  parse_log_line E line = Some rec ->
  exists sp1 sp2 sp3 sp4 sp5 tail,
    line = timestamp rec ++ sp1 ++ s! "[" ++ thread rec ++ s! "]["
             ++ service_context rec ++ s! ":" ++ trace_id rec ++ s! ":"
             ++ parent_span_id rec ++ s! ":" ++ span_id rec ++ s! "]" ++ sp2
             ++ level rec ++ sp3 ++ logger rec ++ sp4 ++ s! "-" ++ sp5
             ++ message rec ++ tail
    /\ blank sp1 /\ blank sp2 /\ blank sp3 /\ blank sp4 /\ blank sp5
    /\ (tail = [] \/ exists t, tail = "010" :: t).
Proof.
  intros H.
  apply parse_layout in H
    as (sp1 & sp2 & sp3 & sp4 & sp5 & rest & -> & Hmsg & B1 & B2 & B3 & B4 & B5 & _).
  exists sp1, sp2, sp3, sp4, sp5, (behind Py.re_dot rest).
  split.
  { rewrite Hmsg. cbn [list_ascii_of_string app].
    rewrite <- (leading_behind Py.re_dot rest). reflexivity. }
  repeat (split; [ assumption | ]).
  destruct (behind_head Py.re_dot rest) as [ Hb | (c & t & Hb & Hc) ];
    [ now left | right ].
  exists t. rewrite Hb. f_equal. now apply dot_false_is_newline.
Qed.

Lemma X1_witness :
  exists sp1 sp2 sp3 sp4 sp5 tail,
    scenario_1_spaced
    = s! "2024-01-15/10:30:00.123" ++ sp1 ++ s! "[" ++ s! "thread-1" ++ s! "]["
        ++ s! "svc-a" ++ s! ":" ++ s! "4bf92f3577b34da6a3ce929d0e0e4736"
        ++ s! ":" ++ s! "00f067aa0ba902b7" ++ s! ":" ++ s! "00f067aa0ba902b8"
        ++ s! "]" ++ sp2 ++ s! "INFO" ++ sp3 ++ s! "com.example.Worker" ++ sp4
        ++ s! "-" ++ sp5 ++ s! "operation start" ++ tail
    /\ blank sp1 /\ blank sp2 /\ blank sp3 /\ blank sp4 /\ blank sp5
    /\ (tail = [] \/ exists t, tail = "010" :: t).
Proof.
  apply (X1_fields_cut_from_line (answering 200) scenario_1_spaced
           (scenario_1_record (answering 200))).
  vm_compute. reflexivity.
Defined.

(** X2: matching is anchored at the first character: a line whose first
    23 characters are not a timestamp of the layout YYYY-MM-DD/HH:MM:SS.mmm
    (an indented line, a continuation line of a stack trace, an empty
    line) is not parsed. *)
Theorem X2_line_must_begin_with_timestamp (E : env) (line : str) :
  timestamp_shaped (take 23 line) = false ->
  parse_log_line E line = None.
Proof.
  intros Hbad.
  destruct (parse_log_line E line) as [ rec | ] eqn:Hp; [ exfalso | reflexivity ].
  apply parse_layout in Hp
    as (sp1 & sp2 & sp3 & sp4 & sp5 & rest & -> & _ & _ & _ & _ & _ & _ & Hts & _).
  pose proof (fits_length _ _ Hts) as Hlen. cbn in Hlen.
  rewrite take_app_length' in Hbad by (symmetry; exact Hlen). congruence.
Qed.

Lemma X2_witness :
  parse_log_line (answering 200) (" " :: scenario_1_spaced) = None.
Proof.
  apply X2_line_must_begin_with_timestamp. vm_compute. reflexivity.
Defined.

(** X3: in every record the thread is not empty and has no closing
    bracket, the service context is not empty and has no colon, the level
    is a non-empty run of word characters, the logger is not empty and
    neither begins nor ends with white space, the message has no line
    feed (it may be empty), and the timestamp has 23 characters. *)
Theorem X3_field_contents (E : env) (line : str) (rec : log_data) :
  parse_log_line E line = Some rec ->
  (thread rec <> [] /\ forallb (Py.other_than "]") (thread rec) = true)
  /\ (service_context rec <> []
      /\ forallb (Py.other_than ":") (service_context rec) = true)
  /\ wordy (level rec)
  /\ trimmed (logger rec) = true
  /\ forallb (Py.other_than "010") (message rec) = true
  /\ length (timestamp rec) = 23%nat.
Proof.
  intros H.
  apply parse_layout in H
    as (sp1 & sp2 & sp3 & sp4 & sp5 & rest & _ & Hmsg & _ & _ & _ & _ & _
        & Hts & Hth & Hctx & Hlv & Hlg).
  repeat (split; [ assumption | ]). split.
  - rewrite Hmsg. apply (leading_all Py.re_dot).
  - apply fits_length in Hts. exact Hts.
Qed.

Lemma X3_witness :
  (thread (scenario_1_record (answering 200)) <> []
   /\ forallb (Py.other_than "]") (thread (scenario_1_record (answering 200))) = true)
  /\ (service_context (scenario_1_record (answering 200)) <> []
      /\ forallb (Py.other_than ":")
                 (service_context (scenario_1_record (answering 200))) = true)
  /\ wordy (level (scenario_1_record (answering 200)))
  /\ trimmed (logger (scenario_1_record (answering 200))) = true
  /\ forallb (Py.other_than "010") (message (scenario_1_record (answering 200))) = true
  /\ length (timestamp (scenario_1_record (answering 200))) = 23%nat.
Proof.
  apply (X3_field_contents (answering 200) scenario_1_spaced).
  vm_compute. reflexivity.
Defined.

(* ------------------------------------------------------------------ *)
(** ** The span name (lines 188-206) *)

Lemma split_nonempty (c : ascii) (s : str) : Py.split c s <> [].
Proof.
  destruct s as [ | x s ]; simpl; [ discriminate | ].
  destruct (Ascii.eqb x c); [ discriminate | ].
  destruct (Py.split c s); discriminate.
Qed.

Lemma last_cons_nonempty {A : Type} (x d : A) (l : list A) :
  l <> [] -> List.last (x :: l) d = List.last l d.
Proof. destruct l; [ congruence | reflexivity ]. Qed.

(** [s.split(c)[-1]] is the text behind the last [c] of [s]. *)
Lemma last_piece_split (c : ascii) (s : str) :
  exists pre,
    s = pre ++ Py.last_piece (Py.split c s)
    /\ free_of c (Py.last_piece (Py.split c s))
    /\ empty_or_ends_with c pre.
Proof.
  remember (length s) as n eqn:Hn.
  assert (Hle : (length s <= n)%nat) by lia. clear Hn.
  revert s Hle. induction n as [ | n IH ]; intros s Hle.
  - destruct s; [ | simpl in Hle; lia ].
    exists []. repeat split. now left.
  - destruct (first_occurrence c s) as [ Hfree | (p & q & -> & Hp) ].
    + exists []. rewrite (split_free c s Hfree). repeat split;
        [ exact Hfree | now left ].
    + rewrite (split_app c p q Hp). unfold Py.last_piece.
      rewrite last_cons_nonempty by apply split_nonempty.
      destruct (IH q) as (pre & Hq & Hfree & Hend).
      { rewrite length_app in Hle. simpl in Hle. lia. }
      exists (p ++ c :: pre). split; [ | split; [ exact Hfree | ] ].
      * rewrite <- app_assoc. simpl. f_equal. f_equal. exact Hq.
      * right. destruct Hend as [ -> | [q' ->] ].
        -- exists p. reflexivity.
        -- exists (p ++ c :: q'). rewrite <- app_assoc. reflexivity.
Qed.

Lemma literal_run {A : Type} (lit s' : str) (g : groups)
      (k : str -> groups -> option A) :
  run (fold_right (fun c r => Lit c · r) Eps lit) (lit ++ s') g k = k s' g.
Proof.
  induction lit as [ | c lit IH ]; [ reflexivity | ].
  cbn [fold_right app run]. rewrite Ascii.eqb_refl. exact IH.
Qed.

Lemma literal_matches (lit w : str) (g g' : groups) :
  matches (fold_right (fun c r => Lit c · r) Eps lit) w g g' ->
  w = lit /\ g' = g.
Proof.
  revert w g. induction lit as [ | c lit IH ]; intros w g; cbn [fold_right matches].
  - tauto.
  - intros (w1 & w2 & g1 & -> & [-> ->] & H). apply IH in H as [-> ->]. auto.
Qed.

(** What a match of [operation_pattern] is. *)
Lemma operation_matches (w : str) (m : groups) :
  matches operation_pattern w ∅ m ->
  w = group m 1 ++ s! " operation" /\ letters (group m 1).
Proof.
  unfold operation_pattern.
  intros (op & w2 & g1 & -> & (g0 & Hop & ->) & Hlit).
  apply matches_plus_class in Hop as (Hne & Hall & ->).
  apply literal_matches in Hlit as [-> ->].
  unfold group. rewrite lookup_insert_eq. cbn [default]. unfold letters. auto.
Qed.

Lemma re_search_sound (r : regex) (s : str) (m : groups) :
  re_search r s = Some m ->
  exists pre w s', s = pre ++ w ++ s' /\ matches r w ∅ m.
Proof.
  induction s as [ | x s IH ]; cbn [re_search].
  - destruct (re_match r []) as [ m' | ] eqn:Hm; [ | discriminate ].
    intros [= <-]. apply re_match_sound in Hm as (w & s' & Hs & H).
    exists [], w, s'. auto.
  - destruct (re_match r (x :: s)) as [ m' | ] eqn:Hm.
    + intros [= <-]. apply re_match_sound in Hm as (w & s' & Hs & H).
      exists [], w, s'. auto.
    + intros H. apply IH in H as (pre & w & s' & -> & H).
      exists (x :: pre), w, s'. auto.
Qed.

(** [re.search] finds a match when one begins somewhere in the string. *)
Lemma re_search_finds (r : regex) (pre s : str) :
  re_match r s <> None -> re_search r (pre ++ s) <> None.
Proof.
  intros Hs. induction pre as [ | x pre IH ].
  - destruct s; cbn [app re_search]; destruct (re_match r _); congruence.
  - cbn [app re_search]. destruct (re_match r (x :: pre ++ s)); [ discriminate | ].
    exact IH.
Qed.

(** The match of [operation_pattern] at a run of letters that stands
    before [" operation"]: the whole run. *)
Lemma operation_match_at_word (w rest : str) :
  letters w ->
  re_match operation_pattern (w ++ s! " operation" ++ rest) = Some (<[1 := w]> ∅).
Proof.
  intros [Hne Hall]. destruct w as [ | x w ]; [ congruence | ].
  simpl in Hall. apply andb_true_iff in Hall as [Hx Hall].
  unfold re_match, operation_pattern, Plus.
  remember (Star (Class Py.ascii_letter)) as st eqn:Hst.
  remember (fold_right (fun c r => Lit c · r) Eps (s! " operation")) as lits eqn:Hl.
  cbn [run app]. rewrite Hx. subst st.
  change (s! " operation" ++ rest) with (" " :: s! "operation" ++ rest).
  apply run_star_class_run; [ exact Hall | reflexivity | ].
  replace (length (x :: w ++ " " :: s! "operation" ++ rest)
           - length (" " :: s! "operation" ++ rest))%nat
    with (length (x :: w))
    by (repeat first [ progress cbn [length] | rewrite length_app ]; lia).
  change (x :: w ++ " " :: s! "operation" ++ rest)
    with ((x :: w) ++ " " :: s! "operation" ++ rest).
  rewrite take_app_length. subst lits.
  change (" " :: s! "operation" ++ rest) with (s! " operation" ++ rest).
  exact (literal_run (s! " operation") rest _ (fun _ g' => Some g')).
Qed.

Lemma operation_no_match_at_other (c : ascii) (s : str) :
  Py.ascii_letter c = false -> re_match operation_pattern (c :: s) = None.
Proof.
  intros Hc. unfold re_match, operation_pattern, Plus. cbn [run]. now rewrite Hc.
Qed.

Lemma operation_no_match_at_end : re_match operation_pattern [] = None.
Proof. reflexivity. Qed.

Lemma startswith_app (p v : str) : Py.startswith p (p ++ v) = true.
Proof.
  induction p as [ | a p IH ]; [ reflexivity | ].
  simpl. now rewrite Ascii.eqb_refl, IH.
Qed.

Lemma contains_here (p s : str) :
  Py.startswith p s = true -> Py.contains p s = true.
Proof. intros H. destruct s; simpl; now rewrite H. Qed.

Lemma contains_app (p u v : str) : Py.contains p (u ++ p ++ v) = true.
Proof.
  induction u as [ | x u IH ].
  - change ([] ++ p ++ v) with (p ++ v). apply contains_here, startswith_app.
  - cbn [app Py.contains]. rewrite IH. apply orb_true_r.
Qed.

Lemma mentions_operation (pre w rest : str) :
  Py.contains (s! "operation") (Py.lower (pre ++ w ++ s! " operation" ++ rest)) = true.
Proof.
  unfold Py.lower. rewrite !map_app.
  change (map Py.lower_char (s! " operation")) with ([" "] ++ s! "operation").
  rewrite <- (app_assoc [" "]), !app_assoc, <- (app_assoc _ (s! "operation")).
  apply contains_app.
Qed.

(** X4: the span name is the text behind the last dot of the logger, a
    dot, the operation name and, when the thread is not empty, a space and
    in parentheses the text behind the last hyphen of the thread (which is
    empty when the thread ends with a hyphen). *)
Theorem X4_span_name_parts (rec : log_data) :
  exists lpre lname tpre tname,
    logger rec = lpre ++ lname
    /\ free_of "." lname /\ empty_or_ends_with "." lpre
    /\ thread rec = tpre ++ tname
    /\ free_of "-" tname /\ empty_or_ends_with "-" tpre
    /\ make_span_name rec
       = lname ++ s! "." ++ operation_of (message rec)
         ++ (if Py.truthy (thread rec) then s! " (" ++ tname ++ s! ")" else []).
Proof.
  destruct (last_piece_split "." (logger rec)) as (lpre & Hl & Hlf & Hle).
  destruct (last_piece_split "-" (thread rec)) as (tpre & Ht & Htf & Hte).
  exists lpre, (Py.last_piece (Py.split "." (logger rec))),
         tpre, (Py.last_piece (Py.split "-" (thread rec))).
  repeat (split; [ assumption | ]).
  unfold make_span_name, operation_of.
  destruct (Py.truthy (thread rec)).
  - rewrite <- !app_assoc. reflexivity.
  - now rewrite app_nil_r.
Qed.

(** X5: when the message has somewhere a run of ASCII letters followed by
    a space and the word "operation" (in lower case), the operation name
    is a non-empty run of ASCII letters that stands in the message right
    before " operation"; in every other case it is "process". *)
Theorem X5_operation_found_or_default (message : str) :
  (names_operation message ->
   letters (operation_of message)
   /\ exists pre rest,
        message = pre ++ operation_of message ++ s! " operation" ++ rest)
  /\ (~ names_operation message -> operation_of message = s! "process").
Proof.
  unfold operation_of. split.
  - intros (pre & w & rest & -> & Hw).
    rewrite mentions_operation.
    destruct (re_search operation_pattern (pre ++ w ++ s! " operation" ++ rest))
      as [ m | ] eqn:Hs.
    + apply re_search_sound in Hs as (pre' & u & s' & Hmsg & Hm).
      apply operation_matches in Hm as [-> Hop].
      split; [ exact Hop | ].
      exists pre', s'. rewrite Hmsg, <- !app_assoc. reflexivity.
    + exfalso. revert Hs. apply re_search_finds.
      now rewrite (operation_match_at_word w rest Hw).
  - intros Hno.
    destruct (Py.contains (s! "operation") (Py.lower message)); [ | reflexivity ].
    destruct (re_search operation_pattern message) as [ m | ] eqn:Hs;
      [ exfalso | reflexivity ].
    apply re_search_sound in Hs as (pre' & u & s' & Hmsg & Hm).
    apply operation_matches in Hm as [-> Hop].
    apply Hno. exists pre', (group m 1), s'. split; [ | exact Hop ].
    rewrite Hmsg, <- !app_assoc. reflexivity.
Qed.

Lemma X5_witness :
  letters (operation_of (s! "start operation now"))
  /\ exists pre rest,
       s! "start operation now"
       = pre ++ operation_of (s! "start operation now") ++ s! " operation" ++ rest.
Proof.
  apply (proj1 (X5_operation_found_or_default (s! "start operation now"))).
  exists [], (s! "start"), (s! " now").
  split; [ reflexivity | ]. split; [ discriminate | reflexivity ].
Defined.

(** X6: when the first letters of the message are a word that is followed
    by " operation" (only characters that are no ASCII letters stand
    before the word), that word is the operation name. *)
Theorem X6_operation_is_first_word (pre w rest : str) :
  forallb (fun c => negb (Py.ascii_letter c)) pre = true ->
  letters w ->
  operation_of (pre ++ w ++ s! " operation" ++ rest) = w.
Proof.
  intros Hpre Hw. unfold operation_of. rewrite mentions_operation.
  assert (Hs : re_search operation_pattern (pre ++ w ++ s! " operation" ++ rest)
               = Some (<[1 := w]> ∅)).
  { induction pre as [ | c pre IH ].
    - cbn [app]. pose proof (operation_match_at_word w rest Hw) as Hm.
      destruct (w ++ s! " operation" ++ rest); cbn [re_search]; now rewrite Hm.
    - simpl in Hpre. apply andb_true_iff in Hpre as [Hc Hpre].
      apply negb_true_iff in Hc.
      cbn [app re_search]. rewrite (operation_no_match_at_other _ _ Hc).
      exact (IH Hpre). }
  rewrite Hs. unfold group. now rewrite lookup_insert_eq.
Qed.

Lemma X6_witness :
  operation_of (s! "42: " ++ s! "commit" ++ s! " operation" ++ s! " done")
  = s! "commit".
Proof.
  apply X6_operation_is_first_word; [ reflexivity | ].
  split; [ discriminate | reflexivity ].
Defined.

(* ------------------------------------------------------------------ *)
(** ** The tags (lines 219-231) *)

(** X7: the tags of a span are exactly [thread], [level], [logger],
    [original_log_format] and [message]; the first four carry the fields
    of the record as they are (the last of them the service context), and
    the [message] tag never has more than 256 characters. *)
Theorem X7_tags (E : env) (rec : log_data) (ids : str * str * option str) :
  let tags := binary_annotations (build_span E rec ids) in
  dom tags = ({["thread"; "level"; "logger"; "original_log_format"; "message"]}
              : gset string)%string
  /\ tags !! "thread"%string = Some (thread rec)
  /\ tags !! "level"%string = Some (level rec)
  /\ tags !! "logger"%string = Some (logger rec)
  /\ tags !! "original_log_format"%string = Some (service_context rec)
  /\ exists tag, tags !! "message"%string = Some tag /\ (length tag <= 256)%nat.
Proof.
  destruct ids as [[t s] p]. unfold build_span. cbn [binary_annotations].
  unfold make_tags.
  destruct (length (message rec) <? 256)%nat eqn:Hlen.
  - split; [ rewrite !dom_insert_L, dom_empty_L; set_solver | ].
    repeat (split; [ now simplify_map_eq | ]).
    exists (message rec). split; [ now simplify_map_eq | ].
    apply Nat.ltb_lt in Hlen. lia.
  - split; [ rewrite !dom_insert_L, dom_empty_L; set_solver | ].
    repeat (split; [ now simplify_map_eq | ]).
    eexists. split; [ now simplify_map_eq | ].
    rewrite length_app, length_take.
    cbn [length]. lia.
Qed.

(* ------------------------------------------------------------------ *)
(** ** The loop of the main block, turn by turn *)

Lemma line_effect_rejected (E : env) (line : str) (w : world) :
  accepts E line = false -> line_effect E line w = w.
Proof.
  unfold accepts, line_effect. now destruct (parse_log_line E line).
Qed.

(** X8: lines that are not parsed leave no trace: the loop on an input
    ends with the count and the world (identifiers drawn, requests made,
    errors logged) of the loop on the parsed lines alone. *)
Theorem X8_rejected_lines_leave_no_trace
        (E : env) (lines : list str) (n : nat) (w : world) :
  read_lines E lines n w = read_lines E (List.filter (accepts E) lines) n w.
Proof.
  rewrite !read_lines_effect. f_equal.
  - f_equal. f_equal. unfold accepted. f_equal.
    induction lines as [ | line lines IH ]; [ reflexivity | ].
    cbn [List.filter]. destruct (accepts E line) eqn:Ha; [ | exact IH ].
    cbn [List.filter]. rewrite Ha. now f_equal.
  - unfold lines_effect. revert w.
    induction lines as [ | line lines IH ]; intros w; [ reflexivity | ].
    cbn [List.filter fold_left]. destruct (accepts E line) eqn:Ha.
    + cbn [fold_left]. apply IH.
    + rewrite (line_effect_rejected E line w Ha). apply IH.
Qed.

(** The loop on an input in two parts: the second part starts from the
    count and the world that the first part ends with. *)
Lemma read_lines_app
        (E : env) (lines1 lines2 : list str) (n : nat) (w : world) :
  exists n1 w1,
    read_lines E lines1 n w = (Return n1, w1)
    /\ read_lines E (lines1 ++ lines2) n w = read_lines E lines2 n1 w1
    /\ n1 = (n + accepted E lines1)%nat.
Proof.
  exists (n + accepted E lines1)%nat, (lines_effect E lines1 w).
  split; [ apply read_lines_effect | ]. split; [ | reflexivity ].
  rewrite !read_lines_effect. unfold lines_effect, accepted.
  rewrite fold_left_app, List.filter_app, length_app. do 2 f_equal. lia.
Qed.




Lemma parse_same_env (E E' : env) (line : str) :
  (forall x, epoch_millis E' x = epoch_millis E x) ->
  parse_log_line E' line = parse_log_line E line.
Proof.
  intros H. unfold parse_log_line.
  destruct (re_match log_pattern line); [ now rewrite H | reflexivity ].
Qed.

Lemma span_of_same_env (E E' : env) (rec : log_data) (n : nat) :
  SERVICE_NAME E' = SERVICE_NAME E ->
  (forall n, entropy E' n = entropy E n) ->
  span_of E' rec n = span_of E rec n.
Proof.
  intros Hname Hent. unfold span_of, build_span, ids_of, fresh.
  now rewrite Hname, !Hent.
Qed.

Lemma lines_effect_same_requests (E E' : env) (lines : list str) :
  SERVICE_NAME E' = SERVICE_NAME E ->
  (forall n, entropy E' n = entropy E n) ->
  (forall x, epoch_millis E' x = epoch_millis E x) ->
  forall w w',
    uuid_calls w' = uuid_calls w -> requests w' = requests w ->
    uuid_calls (lines_effect E' lines w') = uuid_calls (lines_effect E lines w)
    /\ requests (lines_effect E' lines w') = requests (lines_effect E lines w).
Proof.
  intros Hname Hent Hclock.
  induction lines as [ | line lines IH ]; intros w w' Hu Hr; [ auto | ].
  rewrite !lines_effect_cons. apply IH; unfold line_effect;
    rewrite (parse_same_env E E' line Hclock);
    destruct (parse_log_line E line) as [ rec | ]; try assumption.
  - now rewrite !record_effect_calls, Hu.
  - now rewrite !record_effect_requests, Hu, Hr,
      (span_of_same_env E E' rec _ Hname Hent).
Qed.

(** X10: what the server answers changes nothing but the error log: two
    runs on the same input that differ only in the answers to the POSTs
    report the same count, draw the same number of identifiers and make
    the same requests with the same identifiers in the same order. *)
Theorem X10_answers_do_not_change_requests (E E' : env) (lines : list str) :
  SERVICE_NAME E' = SERVICE_NAME E ->
  (forall n, entropy E' n = entropy E n) ->
  (forall x, epoch_millis E' x = epoch_millis E x) ->
  fst (main E' lines world0) = fst (main E lines world0)
  /\ uuid_calls (snd (main E' lines world0)) = uuid_calls (snd (main E lines world0))
  /\ requests (snd (main E' lines world0)) = requests (snd (main E lines world0)).
Proof.
  intros Hname Hent Hclock. rewrite !main_effect. cbn [fst snd].
  split; [ now rewrite (accepted_any_env E E') | ].
  now apply lines_effect_same_requests.
Qed.

Lemma X10_witness :
  fst (main (answering 500) [scenario_1_spaced; xyz_line] world0)
  = fst (main (answering 200) [scenario_1_spaced; xyz_line] world0)
  /\ uuid_calls (snd (main (answering 500) [scenario_1_spaced; xyz_line] world0))
     = uuid_calls (snd (main (answering 200) [scenario_1_spaced; xyz_line] world0))
  /\ requests (snd (main (answering 500) [scenario_1_spaced; xyz_line] world0))
     = requests (snd (main (answering 200) [scenario_1_spaced; xyz_line] world0)).
Proof.
  apply X10_answers_do_not_change_requests; reflexivity.
Defined.

Lemma transport_errors_none (r : post_result) :
  transport_errors r = [] <-> post_failed r = false.
Proof.
  destruct r as [ st text | e ]; simpl.
  - destruct ((400 <=? st)%Z && (st <? 600)%Z); split; congruence.
  - destruct e; split; discriminate.
Qed.

Lemma transport_errors_short (r : post_result) :
  (length (transport_errors r) <= 2)%nat.
Proof.
  destruct r as [ st text | e ]; simpl.
  - destruct ((400 <=? st)%Z && (st <? 600)%Z); simpl; lia.
  - destruct e; simpl; lia.
Qed.

(** The turn of the loop for a parsed line whose span id has 16
    hexadecimal digits. *)
Lemma record_effect_sent (E : env) (rec : log_data) (w : world) :
  sendable rec = true ->
  record_effect E rec w
  = {| uuid_calls := draws rec + uuid_calls w;
       requests := span_of E rec (uuid_calls w) :: requests w;
       errors := transport_errors (backend E (length (requests w))) ++ errors w |}.
Proof.
  intros Hs. unfold record_effect.
  now rewrite (handed_over_sendable E rec _ (sendable_nonempty rec Hs)), Hs.
Qed.

(** The requests and the error log of the loop, line by line, on an
    input whose parsed lines all have span ids of 16 hexadecimal
    digits. *)
Lemma lines_effect_log (E : env) (lines : list str) :
  forall w,
    Forall (fun rec => sendable rec = true) (omap (parse_log_line E) lines) ->
    length (requests (lines_effect E lines w))
    = (accepted E lines + length (requests w))%nat
    /\ exists log,
         errors (lines_effect E lines w) = log ++ errors w
         /\ (length log <= 2 * accepted E lines)%nat
         /\ (log = [] <->
             forall i, (length (requests w) <= i
                        < accepted E lines + length (requests w))%nat ->
                       post_failed (backend E i) = false).
Proof.
  induction lines as [ | line lines IH ]; intros w Hall.
  - split; [ reflexivity | ]. exists []. split; [ reflexivity | ].
    split; [ simpl; lia | ]. split; [ intros _ i Hi | reflexivity ].
    unfold accepted in Hi. simpl in Hi. lia.
  - rewrite lines_effect_cons, accepted_cons.
    cbn [omap list_omap] in Hall. unfold accepts, line_effect in *.
    destruct (parse_log_line E line) as [ rec | ].
    + apply Forall_cons in Hall as [Hs Hall].
      destruct (IH (record_effect E rec w) Hall)
        as (Hlen & log & Hlog & Hshort & Hnone).
      rewrite (record_effect_sent E rec w Hs) in *.
      cbn [requests errors length] in *. split; [ lia | ].
      exists (log ++ transport_errors (backend E (length (requests w)))).
      split; [ now rewrite Hlog, app_assoc | ].
      split.
      { rewrite length_app.
        pose proof (transport_errors_short (backend E (length (requests w)))). lia. }
      split.
      * intros Hnil i Hi. apply app_eq_nil in Hnil as [Hl Ht].
        destruct (Nat.eq_dec i (length (requests w))) as [ -> | Hne ].
        -- now apply transport_errors_none.
        -- apply (proj1 Hnone Hl). lia.
      * intros Hposts.
        assert (Hl : log = []) by (apply Hnone; intros i Hi; apply Hposts; lia).
        assert (Ht : transport_errors (backend E (length (requests w))) = [])
          by (apply transport_errors_none, Hposts; lia).
        now rewrite Hl, Ht.
    + destruct (IH w Hall) as (Hlen & log & Hlog & Hshort & Hnone).
      split; [ lia | ]. exists log. split; [ exact Hlog | ].
      split; [ lia | ]. exact Hnone.
Qed.

(** X11: on an input whose parsed lines all have span ids of 16
    hexadecimal digits, so that a POST is made for each of them, the
    error log of a run has at most two records for each parsed line, and
    it is empty exactly when no POST failed, where a POST fails when it
    raises or is answered with a status from 400 to 599 (an answer with
    any other status, 204 or 302 say, logs nothing). *)
Theorem X11_error_log (E : env) (lines : list str) :
  Forall (fun rec => sendable rec = true) (omap (parse_log_line E) lines) ->
  length (requests (snd (main E lines world0))) = accepted E lines
  /\ (length (errors (snd (main E lines world0))) <= 2 * accepted E lines)%nat
  /\ (errors (snd (main E lines world0)) = [] <->
      forall i, (i < accepted E lines)%nat -> post_failed (backend E i) = false).
Proof.
  intros Hall. rewrite main_effect. cbn [snd].
  destruct (lines_effect_log E lines world0 Hall)
    as (Hlen & log & Hlog & Hshort & Hnone).
  cbn [world0 errors requests length] in *. rewrite app_nil_r in Hlog.
  rewrite Hlog. split; [ lia | ]. split; [ exact Hshort | ].
  rewrite Hnone. split; intros H i Hi; apply H; lia.
Qed.

Lemma X11_witness :
  errors (snd (main (answering 204) [scenario_1_spaced; xyz_line] world0)) = [].
Proof.
  apply (proj2 (proj2 (X11_error_log (answering 204) [scenario_1_spaced; xyz_line]
                         ltac:(vm_compute; repeat constructor)))).
  intros i _. reflexivity.
Defined.

Lemma draws_bounds (rec : log_data) : (2 <= draws rec <= 4)%nat.
Proof.
  unfold draws.
  destruct (regenerated (trace_id rec)), (regenerated (span_id rec)); lia.
Qed.

Lemma lines_effect_draws (E : env) (lines : list str) :
  forall w,
    (2 * accepted E lines + uuid_calls w
     <= uuid_calls (lines_effect E lines w)
     <= 4 * accepted E lines + uuid_calls w)%nat.
Proof.
  induction lines as [ | line lines IH ]; intros w.
  - unfold accepted. simpl. lia.
  - rewrite lines_effect_cons, accepted_cons.
    specialize (IH (line_effect E line w)).
    unfold accepts, line_effect in *.
    destruct (parse_log_line E line) as [ rec | ].
    + rewrite record_effect_calls in IH. pose proof (draws_bounds rec). lia.
    + lia.
Qed.

(** X12: every parsed line draws two identifiers for the default
    arguments of [.get], which it discards, and one more for each of the
    trace id and the span id that it replaces; a run draws between two
    and four identifiers for each parsed line. *)
Theorem X12_identifiers_drawn (E : env) (lines : list str) :
  (forall line rec n w,
      parse_log_line E line = Some rec ->
      uuid_calls (snd (process_line E line n w))
      = (uuid_calls w + 2
         + (if valid_id (trace_id rec) then 0 else 1)
         + (if valid_id (span_id rec) then 0 else 1))%nat)
  /\ (2 * accepted E lines
      <= uuid_calls (snd (main E lines world0))
      <= 4 * accepted E lines)%nat.
Proof.
  split.
  - intros line rec n w Hp. rewrite process_line_effect. cbn [snd].
    apply parse_shape in Hp as Hshape.
    destruct Hshape as (_ & _ & _ & _ & _ & _ & [Ht _] & _ & [Hs _]).
    unfold line_effect. rewrite Hp, record_effect_calls. unfold draws.
    assert (Hr : forall x, x <> [] ->
                 (if regenerated x then 1 else 0)%nat
                 = (if valid_id x then 0 else 1)%nat).
    { intros x Hx. destruct (valid_id x) eqn:Hv.
      - now rewrite (valid_not_regenerated x Hv).
      - assert (regenerated x = true) as -> by (apply regenerated_iff; auto).
        reflexivity. }
    rewrite (Hr _ Ht), (Hr _ Hs). lia.
  - rewrite main_effect. cbn [snd].
    pose proof (lines_effect_draws E lines world0) as H.
    cbn [world0 uuid_calls] in H. lia.
Qed.

Lemma X12_witness :
  exists rec,
    parse_log_line (answering 200) xyz_line = Some rec
    /\ uuid_calls (snd (process_line (answering 200) xyz_line 0 world0))
       = (uuid_calls world0 + 2
          + (if valid_id (trace_id rec) then 0 else 1)
          + (if valid_id (span_id rec) then 0 else 1))%nat.
Proof.
  eexists. split; [ vm_compute; reflexivity | ].
  apply (proj1 (X12_identifiers_drawn (answering 200) [])).
  vm_compute. reflexivity.
Defined.

Lemma operation_letters (message : str) : letters (operation_of message).
Proof.
  unfold operation_of.
  destruct (Py.contains (s! "operation") (Py.lower message));
    [ | split; [ discriminate | reflexivity ] ].
  destruct (re_search operation_pattern message) as [ m | ] eqn:Hs;
    [ | split; [ discriminate | reflexivity ] ].
  apply re_search_sound in Hs as (pre & u & s' & _ & Hm).
  now apply operation_matches in Hm.
Qed.

(** The name of the span of a parsed line. *)
Lemma parsed_span_name (E : env) (line : str) (rec : log_data) :
  parse_log_line E line = Some rec ->
  exists lname op tname,
    make_span_name rec = lname ++ s! "." ++ op ++ s! " (" ++ tname ++ s! ")"
    /\ free_of "." lname /\ letters op /\ free_of "-" tname.
Proof.
  intros Hp.
  apply parse_layout in Hp
    as (? & ? & ? & ? & ? & ? & _ & _ & _ & _ & _ & _ & _ & _ & [Hth _] & _).
  destruct (last_piece_split "." (logger rec)) as (lpre & _ & Hlf & _).
  destruct (last_piece_split "-" (thread rec)) as (tpre & _ & Htf & _).
  exists (Py.last_piece (Py.split "." (logger rec))), (operation_of (message rec)),
         (Py.last_piece (Py.split "-" (thread rec))).
  split; [ | split; [ exact Hlf | split; [ apply operation_letters | exact Htf ] ] ].
  unfold make_span_name. fold (operation_of (message rec)).
  destruct (thread rec); [ congruence | ].
  cbn [Py.truthy]. rewrite <- !app_assoc. reflexivity.
Qed.

Lemma lines_effect_names (E : env) (lines : list str) :
  forall w,
    Forall (fun span =>
              exists lname op tname,
                span_name span
                = lname ++ s! "." ++ op ++ s! " (" ++ tname ++ s! ")"
                /\ free_of "." lname /\ letters op /\ free_of "-" tname)
           (requests w) ->
    Forall (fun span =>
              exists lname op tname,
                span_name span
                = lname ++ s! "." ++ op ++ s! " (" ++ tname ++ s! ")"
                /\ free_of "." lname /\ letters op /\ free_of "-" tname)
           (requests (lines_effect E lines w)).
Proof.
  induction lines as [ | line lines IH ]; intros w Hw; [ exact Hw | ].
  rewrite lines_effect_cons. apply IH. unfold line_effect.
  destruct (parse_log_line E line) as [ rec | ] eqn:Hp; [ | exact Hw ].
  rewrite record_effect_requests.
  destruct (handed_over (span_of E rec (uuid_calls w))); [ | exact Hw ].
  constructor; [ | exact Hw ].
  unfold span_of, build_span, ids_of. cbn [span_name].
  exact (parsed_span_name E line rec Hp).
Qed.

(** X13: the name of every span that a run sends has the form
    [<logger tail>.<operation> (<thread tail>)]: a text without a dot, a
    dot, a non-empty run of ASCII letters, and in parentheses a text
    without a hyphen; the parenthesis is never missing, since the thread
    of a parsed line is never empty. *)
Theorem X13_sent_span_names (E : env) (lines : list str) :
  Forall (fun span =>
            exists lname op tname,
              span_name span
              = lname ++ s! "." ++ op ++ s! " (" ++ tname ++ s! ")"
              /\ free_of "." lname /\ letters op /\ free_of "-" tname)
         (requests (snd (main E lines world0))).
Proof.
  rewrite main_effect. cbn [snd]. apply lines_effect_names. constructor.
Qed.


